(** * gopowermax: the iterator walker, the job poller's callers and the mock

    A shallow embedding of the paging and job code of
    [sloprovisioning.go] (package [pmax]) and of the handlers of the mock
    Unisphere ([package mock]) that serve it, followed by the properties of
    the specification that concern them.

    Conventions of the embedding.
    - Go's [int] is the 64-bit two's complement integer of the supported
      targets: a [Z] that every arithmetic operation wraps ([GoInt]).
    - A Go [string] is a [string]; [len] of it counts its bytes.
    - A call returns an [outcome]: a value, an [error], a run-time panic, or
      [OutOfFuel] when the loop bound of the model is used up (the Go loop
      has no bound of its own).
    - The HTTP transport [c.api] together with [checkResponse] and the JSON
      decoding of the body is the record [Api]: one typed entry per
      request the client issues, acting on the state of the server.  Every
      request is also appended to a log, so that theorems can speak about
      the requests a call issues. *)

From stdpp Require Import gmap strings list pretty.
From Stdlib Require Import ZArith Lia Ascii.

Local Open Scope Z_scope.

(** ** Go's [int] *)

Module GoInt.

Definition min_int : Z := - 2 ^ 63.
Definition max_int : Z := 2 ^ 63 - 1.

Definition wrap (z : Z) : Z := (z + 2 ^ 63) mod 2 ^ 64 - 2 ^ 63.

Definition add (a b : Z) : Z := wrap (a + b).
Definition sub (a b : Z) : Z := wrap (a - b).

Definition in_range (z : Z) : Prop := min_int <= z <= max_int.

(** Values far enough from the ends of the range that the sums and
    differences of the paging code stay inside it. *)
Definition small (z : Z) : Prop := - 2 ^ 61 <= z <= 2 ^ 61.

(** [strconv.Itoa] and the [%d] verb. *)
Definition itoa (z : Z) : string := pretty z.

End GoInt.

(** ** The types of [types/v100] the code uses *)

Module types.

Definition JobStatusUnscheduled : string := "UNSCHEDULED".
Definition JobStatusScheduled : string := "SCHEDULED".
Definition JobStatusSucceeded : string := "SUCCEEDED".
Definition JobStatusFailed : string := "FAILED".
Definition JobStatusRunning : string := "RUNNING".

Definition ExecutionOptionSynchronous : string := "SYNCHRONOUS".
Definition ExecutionOptionAsynchronous : string := "ASYNCHRONOUS".

(** [Job], with the fields the client and the mock read or write; the
    others keep their zero value throughout. *)
Record Job : Type := mkJob {
  JobID : string;
  Status : string;
  CompletedDate : string;
  ResourceLink : string;
  Result : string
}.

Record VolumeIDList : Type := mkVolumeIDList { VolumeIDs : string }.

Record VolumeResultList : Type := mkVolumeResultList {
  From : Z;
  To : Z;
  VolumeList : list VolumeIDList
}.

Record VolumeIterator : Type := mkVolumeIterator {
  Count : Z;
  ID : string;
  MaxPageSize : Z;
  ExpirationTime : Z;
  ResultList : VolumeResultList
}.

(** [Volume], with the fields [GetVolumeByIdentifier] reads. *)
Record Volume : Type := mkVolume {
  VolumeID : string;
  VolumeIdentifier : string;
  CapacityCYL : Z;
  StorageGroupIDList : list string
}.

End types.

Import types.

(** ** Outcomes and the client monad *)

Inductive outcome (A : Type) : Type :=
| Ok (a : A)
| Err (e : string)
| Panic (msg : string)
| OutOfFuel.

Arguments Ok {A} a.
Arguments Err {A} e.
Arguments Panic {A} msg.
Arguments OutOfFuel {A}.

Definition is_OutOfFuel {A : Type} (r : outcome A) : bool :=
  match r with OutOfFuel => true | _ => false end.

Definition is_Err {A : Type} (r : outcome A) : bool :=
  match r with Err _ => true | _ => false end.

(** [http.Header], the metadata a caller may attach to a payload. *)
Definition Header : Type := list (string * list string).

(** The payload of a storage-group PUT, by the fields that
    [GetCreateVolInSGPayload] and [GetAddVolumeToSGPayload] set to
    something else than a constant: the execution option, the size and
    the name of the new volume or the volumes to add with the force flag,
    the remote array and its storage groups, and the metadata. *)
Inductive UpdateStorageGroupPayload : Type :=
| CreateVolPayload (executionOption : string) (volumeSize : string)
    (identifierName : string) (remoteSymmetrix1ID : string)
    (remoteSymmetrix1SGs : list string) (metadata : option Header)
| AddSpecificVolPayload (executionOption : string) (force : bool)
    (remoteSymmetrix1ID : string) (remoteSymmetrix1SGs : list string)
    (volumeIDs : list string).

(** The requests of the modelled code, as the log records them. *)
Inductive Call : Type :=
| GetVolumes (symID query : string)
| GetIteratorPage (iterID : string) (from to : Z)
| DeleteIterator (iterID : string)
| GetVolume (symID volumeID : string)
| PutStorageGroup (symID storageGroupID : string)
    (payload : UpdateStorageGroupPayload).

Definition isDelete (c : Call) : bool :=
  match c with DeleteIterator _ => true | _ => false end.

Definition isPageGet (c : Call) : bool :=
  match c with GetIteratorPage _ _ _ => true | _ => false end.

Section Client.

(** The state of the server behind the transport. *)
Context {S : Type}.

Record Api : Type := mkApi {
  api_GetVolumes : string -> string -> S -> (string + VolumeIterator) * S;
  api_GetIteratorPage :
    string -> Z -> Z -> S -> (string + VolumeResultList) * S;
  api_DeleteIterator : string -> S -> option string * S;
  api_GetVolume : string -> string -> S -> (string + Volume) * S;
  api_PutStorageGroup :
    string -> string -> UpdateStorageGroupPayload -> S -> (string + Job) * S;
  api_PutStorageGroupS :
    string -> string -> UpdateStorageGroupPayload -> S -> option string * S
}.

Record World : Type := mkWorld { server : S; calls : list Call }.

Definition M (A : Type) : Type := World -> outcome A * World.

Definition ret {A : Type} (a : A) : M A := fun w => (Ok a, w).

Definition fail {A : Type} (e : string) : M A := fun w => (Err e, w).

Definition panic {A : Type} (msg : string) : M A := fun w => (Panic msg, w).

Definition bind {A B : Type} (m : M A) (k : A -> M B) : M B :=
  fun w =>
    match m w with
    | (Ok a, w') => k a w'
    | (Err e, w') => (Err e, w')
    | (Panic msg, w') => (Panic msg, w')
    | (OutOfFuel, w') => (OutOfFuel, w')
    end.

(** [defer d] in front of [body]: [d] runs when [body] returns or panics,
    its own results are dropped; a [body] that never returns never runs
    it. *)
Definition with_defer {A B : Type} (d : M B) (body : M A) : M A :=
  fun w =>
    match body w with
    | (OutOfFuel, w') => (OutOfFuel, w')
    | (r, w') => (r, snd (d w'))
    end.

(** One request through the transport: logged, then served. *)
Definition request {A : Type} (c : Call) (h : S -> (string + A) * S) : M A :=
  fun w =>
    let '(r, s') := h (server w) in
    let w' := mkWorld s' (calls w ++ [c]) in
    match r with
    | inl e => (Err e, w')
    | inr a => (Ok a, w')
    end.

Definition request_ (c : Call) (h : S -> option string * S) : M unit :=
  fun w =>
    let '(r, s') := h (server w) in
    let w' := mkWorld s' (calls w ++ [c]) in
    match r with
    | Some e => (Err e, w')
    | None => (Ok tt, w')
    end.

End Client.

Arguments Api S : clear implicits.
Arguments World S : clear implicits.
Arguments M S A : clear implicits.

Notation "x <- m ;; k" := (bind m (fun x => k))
  (at level 100, m at next level, right associativity).

(** ** [sloprovisioning.go] *)

Definition MaxVolIdentifierLength : Z := 64.

(** [len] of a string and of a slice, as an [int]. *)
Definition len_string (s : string) : Z := Z.of_nat (String.length s).
Definition len {A : Type} (l : list A) : Z := Z.of_nat (length l).

(** The adjustment of [to] at the head of [GetVolumeIDsIteratorPage]: the
    default or the cut to one page, then the clamp to [Count]. *)
Definition defaultTo (iter : VolumeIterator) (from to : Z) : Z :=
  if (to =? 0) || (GoInt.add (GoInt.sub to from) 1 >? MaxPageSize iter)
  then GoInt.sub (GoInt.add from (MaxPageSize iter)) 1
  else to.

Definition clampTo (iter : VolumeIterator) (to : Z) : Z :=
  if to >? Count iter then Count iter else to.

Definition pageTo (iter : VolumeIterator) (from to : Z) : Z :=
  clampTo iter (defaultTo iter from to).

(** [for i := range src { dst[i] = src[i].VolumeIDs }]: [None] is the
    index-out-of-range panic of the assignment. *)
Fixpoint fillVolumeIDs (src : list VolumeIDList) (i : nat) (dst : list string)
  : option (list string) :=
  match src with
  | [] => Some dst
  | v :: rest =>
      if decide (i < length dst)%nat
      then fillVolumeIDs rest (Datatypes.S i) (<[i := VolumeIDs v]> dst)
      else None
  end.

(** [make([]string, n)] followed by the copy loop. *)
Definition makeAndFill (n : Z) (src : list VolumeIDList)
  : outcome (list string) :=
  if n <? 0 then Panic "makeslice: len out of range"
  else match fillVolumeIDs src 0 (replicate (Z.to_nat n) "") with
       | Some l => Ok l
       | None => Panic "index out of range"
       end.

Section Pmax.

Context {S : Type}.

(** The transport of the client. *)
Variable api : Api S.

(** Methods of [Client] whose bodies are in other files of the package:
    the allow-list check, the job poller and the rendering of a job. A
    nil [*types.Job] is [None]. *)
Variable IsAllowedArray : string -> bool * option string.
Variable WaitOnJobCompletion : string -> string -> M S (option Job).
Variable JobToString : Job -> string.

(** [fmt.Errorf] of a format string that is not a literal and has no
    operands: the text the library renders for it (the format itself
    when it holds no verb). *)
Variable Errorf0 : string -> string.

(** Whether [*types.UpdateStorageGroupPayload] has a [SetMetaData]
    method. *)
Variable payloadHasSetMetaData : bool.

Definition checkAllowedArray (symID : string) : M S unit :=
  match IsAllowedArray symID with
  | (_, Some e) => fail e
  | (_, None) => ret tt
  end.

(** Runs [m] and hands its error, if any, to the caller as a value. *)
Definition try {A : Type} (m : M S A) : M S (string + A) :=
  fun w =>
    match m w with
    | (Ok a, w') => (Ok (inr a), w')
    | (Err e, w') => (Ok (inl e), w')
    | (Panic msg, w') => (Panic msg, w')
    | (OutOfFuel, w') => (OutOfFuel, w')
    end.

Definition getVolumeIDsIteratorBase (symID query : string)
  : M S VolumeIterator :=
  request (GetVolumes symID query) (api_GetVolumes api symID query).

Definition GetVolumeIDsIterator (symID volumeIdentifierMatch : string)
    (like : bool) : M S VolumeIterator :=
  _ <- checkAllowedArray symID ;;
  let query :=
    if decide (volumeIdentifierMatch = "") then ""
    else if like
         then "?volume_identifier=%3Clike%3E" +:+ volumeIdentifierMatch
         else "?volume_identifier=" +:+ volumeIdentifierMatch in
  getVolumeIDsIteratorBase symID query.

Definition GetVolumeIDsIteratorPage (iter : VolumeIterator) (from to : Z)
  : M S (list string) :=
  let to := pageTo iter from to in
  result <- request (GetIteratorPage (ID iter) from to)
                    (api_GetIteratorPage api (ID iter) from to) ;;
  fun w => (makeAndFill (GoInt.add (GoInt.sub to from) 1)
                        (VolumeList result), w).

Definition DeleteVolumeIDsIterator (iter : VolumeIterator) : M S unit :=
  request_ (DeleteIterator (ID iter)) (api_DeleteIterator api (ID iter)).

(** The loop over the additional pages; [fuel] bounds its iterations. *)
Fixpoint additionalPages (fuel : nat) (iter : VolumeIterator) (from : Z)
    (volumeIDList : list string) : M S (list string) :=
  if from <=? Count iter then
    match fuel with
    | O => fun w => (OutOfFuel, w)
    | Datatypes.S fuel' =>
        idlist <- GetVolumeIDsIteratorPage iter from 0 ;;
        additionalPages fuel' iter (GoInt.add from (len idlist))
                        (volumeIDList ++ idlist)
    end
  else ret volumeIDList.

Definition volumeIteratorToVolIDList_body (fuel : nat)
    (iter : VolumeIterator) : M S (list string) :=
  let result := ResultList iter in
  let volumeIDList := map VolumeIDs (VolumeList result) in
  volumeIDList <-
    additionalPages fuel iter (GoInt.add (To result) 1) volumeIDList ;;
  if decide (len volumeIDList = Count iter) then ret volumeIDList
  else fail ("Expected " +:+ GoInt.itoa (Count iter) +:+ " ids but got "
             +:+ GoInt.itoa (len volumeIDList) +:+ " ids").

Definition volumeIteratorToVolIDList (fuel : nat) (iter : VolumeIterator)
  : M S (list string) :=
  if MaxPageSize iter <? Count iter
  then with_defer (DeleteVolumeIDsIterator iter)
                  (volumeIteratorToVolIDList_body fuel iter)
  else volumeIteratorToVolIDList_body fuel iter.

Definition GetVolumeIDList (fuel : nat) (symID volumeIdentifierMatch : string)
    (like : bool) : M S (list string) :=
  _ <- checkAllowedArray symID ;;
  iter <- GetVolumeIDsIterator symID volumeIdentifierMatch like ;;
  volumeIteratorToVolIDList fuel iter.

Definition GetVolumeByID (symID volumeID : string) : M S Volume :=
  _ <- checkAllowedArray symID ;;
  request (GetVolume symID volumeID) (api_GetVolume api symID volumeID).

Definition UpdateStorageGroup (symID storageGroupID : string)
    (payload : UpdateStorageGroupPayload) : M S Job :=
  _ <- checkAllowedArray symID ;;
  request (PutStorageGroup symID storageGroupID payload)
          (api_PutStorageGroup api symID storageGroupID payload).

Definition UpdateStorageGroupS (symID storageGroupID : string)
    (payload : UpdateStorageGroupPayload) : M S unit :=
  _ <- checkAllowedArray symID ;;
  request_ (PutStorageGroup symID storageGroupID payload)
           (api_PutStorageGroupS api symID storageGroupID payload).

Definition GetCreateVolInSGPayload (sizeInCylinders : Z)
    (volumeName : string) (isSync : bool)
    (remoteSymID remoteStorageGroupID : string) (opts : list Header)
  : UpdateStorageGroupPayload :=
  let size := GoInt.itoa sizeInCylinders in
  let executionOption :=
    if isSync then ExecutionOptionSynchronous
    else ExecutionOptionAsynchronous in
  CreateVolPayload executionOption size volumeName remoteSymID
    (if decide (remoteSymID = "") then [] else [remoteStorageGroupID])
    (match opts with
     | [] => None
     | h :: _ => if payloadHasSetMetaData then Some h else None
     end).

Definition GetAddVolumeToSGPayload (isSync force : bool)
    (remoteSymID remoteStorageGroupID : string) (volumeIDs : list string)
  : UpdateStorageGroupPayload :=
  let executionOption :=
    if isSync then ExecutionOptionSynchronous
    else ExecutionOptionAsynchronous in
  AddSpecificVolPayload executionOption force remoteSymID
    (if decide (remoteSymID = "") then [] else [remoteStorageGroupID])
    volumeIDs.

(** The search of [GetVolumeByIdentifier] through the ids: the first
    volume that can be read, is in the storage group and has the size. *)
Fixpoint firstMatchingVolume (symID storageGroupID : string)
    (sizeInCylinders : Z) (volIDList : list string) : M S (option Volume) :=
  match volIDList with
  | [] => ret None
  | volumeID :: rest =>
      r <- try (GetVolumeByID symID volumeID) ;;
      match r with
      | inr vol =>
          if existsb (fun sgID =>
                        bool_decide (sgID = storageGroupID)
                        && (CapacityCYL vol =? sizeInCylinders))
                     (StorageGroupIDList vol)
          then ret (Some vol)
          else firstMatchingVolume symID storageGroupID sizeInCylinders rest
      | inl _ =>
          firstMatchingVolume symID storageGroupID sizeInCylinders rest
      end
  end.

Definition GetVolumeByIdentifier (fuel : nat)
    (symID storageGroupID volumeName : string) (sizeInCylinders : Z)
  : M S Volume :=
  r <- try (GetVolumeIDList fuel symID volumeName false) ;;
  match r with
  | inl e => fail (Errorf0 ("Couldn't get Volume ID List: " +:+ e))
  | inr volIDList =>
      found <- firstMatchingVolume symID storageGroupID sizeInCylinders
                                   volIDList ;;
      match found with
      | Some vol => ret vol
      | None =>
          fail (Errorf0 ("Failed to find newly created volume with name: "
                         +:+ volumeName +:+ " in SG: " +:+ storageGroupID))
      end
  end.

(** The tail shared by the two asynchronous operations: wait for the
    job, then look at its status. *)
Definition waitAndCheck (symID : string) (job : Job) : M S unit :=
  job <- WaitOnJobCompletion symID (JobID job) ;;
  match job with
  | None => panic "invalid memory address or nil pointer dereference"
  | Some job =>
      if decide (Status job = JobStatusFailed)
      then fail (Errorf0 ("The UpdateStorageGroup job failed: "
                          +:+ JobToString job))
      else ret tt
  end.

Definition CreateVolumeInStorageGroup (fuel : nat)
    (symID storageGroupID volumeName : string) (sizeInCylinders : Z)
  : M S Volume :=
  _ <- checkAllowedArray symID ;;
  if len_string volumeName >? MaxVolIdentifierLength
  then fail "Length of volumeName exceeds max limit"
  else
    let payload :=
      GetCreateVolInSGPayload sizeInCylinders volumeName false "" "" [] in
    r <- try (UpdateStorageGroup symID storageGroupID payload) ;;
    match r with
    | inl _ => fail "A job was not returned from UpdateStorageGroup"
    | inr job =>
        _ <- waitAndCheck symID job ;;
        GetVolumeByIdentifier fuel symID storageGroupID volumeName
                              sizeInCylinders
    end.

Definition CreateVolumeInStorageGroupS (fuel : nat)
    (symID storageGroupID volumeName : string) (sizeInCylinders : Z)
    (opts : list Header) : M S Volume :=
  _ <- checkAllowedArray symID ;;
  if len_string volumeName >? MaxVolIdentifierLength
  then fail "Length of volumeName exceeds max limit"
  else
    let payload :=
      GetCreateVolInSGPayload sizeInCylinders volumeName true "" "" opts in
    r <- try (UpdateStorageGroupS symID storageGroupID payload) ;;
    match r with
    | inl e => fail ("couldn't create volume. error - " +:+ e)
    | inr _ =>
        GetVolumeByIdentifier fuel symID storageGroupID volumeName
                              sizeInCylinders
    end.

Definition AddVolumesToStorageGroup (symID storageGroupID : string)
    (force : bool) (volumeIDs : list string) : M S unit :=
  _ <- checkAllowedArray symID ;;
  if len volumeIDs =? 0
  then fail "At least one volume id has to be specified"
  else
    let payload := GetAddVolumeToSGPayload false force "" "" volumeIDs in
    r <- try (UpdateStorageGroup symID storageGroupID payload) ;;
    match r with
    | inl _ => fail "A job was not returned from UpdateStorageGroup"
    | inr job => waitAndCheck symID job
    end.

End Pmax.

(** ** The mock Unisphere ([package mock]) *)

Module mock.

(** [JobInfo] simulates a job; its comment in the source reads: the first
    call to read it returns Status as the InitialState, subsequent calls
    return the Status as the FinalState. *)
Record JobInfo : Type := mkJobInfo {
  Job : types.Job;
  InitialState : string;
  FinalState : string
}.

(** The tables of [Data] that the iterator and job handlers use. *)
Record Data : Type := mkData {
  VolumeIDIteratorList : list string;
  JobIDToMockJob : gmap string JobInfo
}.

(** The switches of [InducedErrors] that the modelled handlers test. *)
Record InducedErrors : Type := mkInducedErrors {
  GetVolumeIteratorError : bool;
  GetJobError : bool;
  GetJobCannotFindRoleForUser : bool
}.

Record State : Type := mkState { data : Data; induced : InducedErrors }.

(** What a handler writes: [writeError] with a message and a status, or
    the JSON encoding of a value. *)
Inductive Response (A : Type) : Type :=
| Error (message : string) (httpStatus : Z)
| Body (a : A).

Arguments Error {A} message httpStatus.
Arguments Body {A} a.

Definition StatusBadRequest : Z := 400.
Definition StatusNotFound : Z := 404.
Definition StatusRequestTimeout : Z := 408.
Definition StatusInternalServerError : Z := 500.

(** [Reset], for the modelled tables and switches. *)
Definition Reset : State :=
  mkState (mkData [] ∅) (mkInducedErrors false false false).

Definition NewMockJob (jobID initialState finalState resourceLink : string)
    (st : State) : JobInfo * State :=
  let job :=
    mkJobInfo (mkJob jobID "SCHEDULED" "" resourceLink "")
              initialState finalState in
  (job,
   mkState (mkData (VolumeIDIteratorList (data st))
                   (<[jobID := job]> (JobIDToMockJob (data st))))
           (induced st)).

(** [returnJobByID]; [now] is the text of [time.Now()] at the call. The
    job is updated in the table, and the updated job is the body. *)
Definition returnJobByID (now : string) (jobID : string) (st : State)
  : Response types.Job * State :=
  match JobIDToMockJob (data st) !! jobID with
  | None => (Error ("Job not found: " +:+ jobID) StatusNotFound, st)
  | Some job =>
      let j := Job job in
      let j' :=
        if decide (Status j = InitialState job)
        then mkJob (JobID j) (FinalState job) now (ResourceLink j)
                   "Mock job completed"
        else mkJob (JobID j) (InitialState job) (CompletedDate j)
                   (ResourceLink j) "Mock job in-progress" in
      let job' := mkJobInfo j' (InitialState job) (FinalState job) in
      (Body j',
       mkState (mkData (VolumeIDIteratorList (data st))
                       (<[jobID := job']> (JobIDToMockJob (data st))))
               (induced st))
  end.

(** [handleJob] for [GET .../job/{jobID}] with a job id. *)
Definition handleJob (now : string) (jobID : string) (st : State)
  : Response types.Job * State :=
  if GetJobError (induced st)
  then (Error "Error getting Job(s): induced error" StatusRequestTimeout, st)
  else if GetJobCannotFindRoleForUser (induced st)
  then (Error "Cannot find role for user" StatusInternalServerError,
        mkState (data st)
                (mkInducedErrors (GetVolumeIteratorError (induced st))
                                 (GetJobError (induced st)) false))
  else returnJobByID now jobID st.

(** [Data.VolumeIDIteratorList[i]] for an [int] index. *)
Definition index (l : list string) (i : Z) : option string :=
  if i <? 0 then None else l !! Z.to_nat i.

(** [n] rounds of the loop body
    [result.VolumeList = append(result.VolumeList, {Data.VolumeIDIteratorList[i]})]
    from index [i] on; [None] when an index is out of range. *)
Fixpoint appendVolumeIDs (l : list string) (i : Z) (n : nat)
    (acc : list VolumeIDList) : option (list VolumeIDList) :=
  match n with
  | O => Some acc
  | Datatypes.S n' =>
      match index l i with
      | Some v => appendVolumeIDs l (i + 1) n' (acc ++ [mkVolumeIDList v])
      | None => None
      end
  end.

(** The listing branch of [handleVolume] ([GET .../volume]). [matching]
    is the outcome of its filter loop: the ids of the volumes of
    [Data.VolumeIDToVolume] that match the query, in the order in which
    the iteration over the map met them. The first page is filled by
    [for i := From - 1; i <= To - 1; i++]. *)
Definition handleVolume_list (matching : list string) (st : State)
  : option (Response VolumeIterator) * State :=
  if GetVolumeIteratorError (induced st)
  then (Some (Error "Error getting VolumeIterator: induced error"
                    StatusRequestTimeout), st)
  else
    let st' := mkState (mkData matching (JobIDToMockJob (data st)))
                       (induced st) in
    let maxPageSize := 10 in
    let numberToDo :=
      if len matching >? maxPageSize then maxPageSize else len matching in
    let from := 1 in
    let to := numberToDo in
    let first := GoInt.sub from 1 in
    match appendVolumeIDs matching first
                          (Z.to_nat (GoInt.sub to 1 + 1 - first)) [] with
    | Some vl =>
        (Some (Body (mkVolumeIterator (len matching) "Volume" maxPageSize 0
                       (mkVolumeResultList from to vl))), st')
    | None => (None, st')
    end.

(** [handleIterator] for [GET /common/Iterator/{iterId}/page?from=&to=]
    with decimal [from] and [to], as the client writes them. The page is
    filled by [for i := result.From - 1; i < result.To-1; i++]. [None] is
    a panic of the handler. *)
Definition handleIterator_get (from to : Z) (st : State)
  : option (Response VolumeResultList) :=
  let first := GoInt.sub from 1 in
  match appendVolumeIDs (VolumeIDIteratorList (data st)) first
                        (Z.to_nat (GoInt.sub to 1 - first)) [] with
  | Some vl => Some (Body (mkVolumeResultList from to vl))
  | None => None
  end.

End mock.

(** ** The client in front of the mock *)

Section MockTransport.

(** The filter of [handleVolume] over [Data.VolumeIDToVolume], a table
    that is not modelled: the matching ids for a query. *)
Variable matchingVolumes : string -> mock.State -> list string.

(** The entries served by the volume and storage-group tables. *)
Variable tables : Api mock.State.

(** What the client makes of a response: the message of an error
    response ([checkResponse]), a broken connection when the handler
    panicked, the decoded body otherwise. *)
Definition decoded {A : Type} (r : option (mock.Response A)) : string + A :=
  match r with
  | None => inl "EOF"
  | Some (mock.Error message _) => inl message
  | Some (mock.Body a) => inr a
  end.

(** [getRouter] routes [/common/Iterator/{iterId}/page] to
    [handleIterator] and has no route for [/common/Iterator/{iterId}],
    the URL of the client's DELETE: that request is answered by the
    router itself. *)
Definition mockApi : Api mock.State :=
  {| api_GetVolumes := fun _ query st =>
       let '(r, st') :=
         mock.handleVolume_list (matchingVolumes query st) st in
       (decoded r, st');
     api_GetIteratorPage := fun _ from to st =>
       (decoded (mock.handleIterator_get from to st), st);
     api_DeleteIterator := fun _ st => (Some "404 page not found", st);
     api_GetVolume := api_GetVolume tables;
     api_PutStorageGroup := api_PutStorageGroup tables;
     api_PutStorageGroupS := api_PutStorageGroupS tables |}.

End MockTransport.

(** A mock whose volume table yields [ids] for every query, and whose
    other tables are empty. *)
Definition noTables : Api mock.State :=
  {| api_GetVolumes := fun _ _ st => (inl "not found", st);
     api_GetIteratorPage := fun _ _ _ st => (inl "not found", st);
     api_DeleteIterator := fun _ st => (Some "not found", st);
     api_GetVolume := fun _ _ st => (inl "not found", st);
     api_PutStorageGroup := fun _ _ _ st => (inl "not found", st);
     api_PutStorageGroupS := fun _ _ _ st => (Some "not found", st) |}.

Definition mockWith (ids : list string) : Api mock.State :=
  mockApi (fun _ _ => ids) noTables.

(** [GetVolumeIDList] of every volume of the mock, on an allowed array. *)
Definition mockGetVolumeIDList (fuel : nat) (ids : list string)
  : outcome (list string) * World mock.State :=
  GetVolumeIDList (mockWith ids) (fun _ => (true, None)) fuel
                  "000197900046" "" false (mkWorld mock.Reset []).

(** Volume ids ["v1"], ["v2"], ... *)
Definition volumeIDs (n : nat) : list string :=
  map (fun i => "v" +:+ pretty (Datatypes.S i)) (seq 0 n).


(** Modelled from the spec: [WaitOnJobCompletion], which [interface.go]
    declares and whose body is not among the sources. The poller polls the
    GET of the job in a loop; each poll decodes the job; a status succeeded
    or failed ends the loop with that job; any other status is followed by
    a pause and another poll; a failed GET (a job that is not found among
    them) is returned at once and not retried; the loop is bounded by the
    deadline of the caller, here the number [deadline] of polls it leaves
    room for, and passing it is a timeout error that carries the last
    status seen. The number of GETs is returned beside the result. *)
Definition isTerminal (status : string) : bool :=
  bool_decide (status = JobStatusSucceeded)
  || bool_decide (status = JobStatusFailed).



(** A mock that holds the volumes [ids] and whose iterator declares
    [extra] elements more than it has: the iterator of the listing with
    its [Count] raised. *)
Definition overcount (extra : Z) (iter : VolumeIterator) : VolumeIterator :=
  mkVolumeIterator (Count iter + extra) (ID iter) (MaxPageSize iter)
                   (ExpirationTime iter) (ResultList iter).

Definition mockDrainOvercounted (fuel : nat) (ids : list string) (extra : Z)
  : outcome (list string) * World mock.State :=
  match GetVolumeIDsIterator (mockWith ids) (fun _ => (true, None))
                             "000197900046" "" false
                             (mkWorld mock.Reset []) with
  | (Ok iter, w) =>
      volumeIteratorToVolIDList (mockWith ids) fuel (overcount extra iter) w
  | (Err e, w) => (Err e, w)
  | (Panic m, w) => (Panic m, w)
  | (OutOfFuel, w) => (OutOfFuel, w)
  end.

(** A transport for the examples of the asynchronous operations: every
    storage-group PUT is answered by the job [job], nothing else is
    served. *)
Definition jobApi (job : Job) : Api unit :=
  {| api_GetVolumes := fun _ _ s => (inl "not found", s);
     api_GetIteratorPage := fun _ _ _ s => (inl "not found", s);
     api_DeleteIterator := fun _ s => (Some "not found", s);
     api_GetVolume := fun _ _ s => (inl "not found", s);
     api_PutStorageGroup := fun _ _ _ s => (inr job, s);
     api_PutStorageGroupS := fun _ _ _ s => (None, s) |}.

(** The examples: the iterator of the mock over [n] volumes, whose embedded
    first page holds the first ten of them at most, and an untouched
    world. *)
Definition mockIterator (n : nat) : VolumeIterator :=
  mkVolumeIterator (Z.of_nat n) "Volume" 10 0
    (mkVolumeResultList 1 (Z.min (Z.of_nat n) 10)
       (map mkVolumeIDList (take 10 (volumeIDs n)))).

Definition mockWorld (ids : list string) : World mock.State :=
  mkWorld (mock.mkState (mock.mkData ids ∅)
                        (mock.mkInducedErrors false false false)) [].

Definition failedJob : Job :=
  mkJob "job1" JobStatusFailed "t2"
        "sloprovisioning/system/000197900046/storagegroup/sg1"
        "Mock job completed".

Definition allArraysAllowed (symID : string) : bool * option string :=
  (true, None).

Definition longVolumeName : string :=
  "aaaaaaaaaaaaaaaaaaaaaaaaaaaaaaaaaaaaaaaaaaaaaaaaaaaaaaaaaaaaaaaaa".

(** ** More of [sloprovisioning.go]: listings by storage group, the
    synchronous and protected additions *)

Section PmaxMore.

Context {S : Type}.
Variable api : Api S.
Variable IsAllowedArray : string -> bool * option string.
Variable Errorf0 : string -> string.
Variable payloadHasSetMetaData : bool.

Definition GetVolumesInStorageGroupIterator (symID storageGroupID : string)
  : M S VolumeIterator :=
  if decide (storageGroupID = "") then fail "storageGroupID is empty"
  else getVolumeIDsIteratorBase api symID
         ("?storageGroupId=" +:+ storageGroupID).

Definition GetVolumeIDListInStorageGroup (fuel : nat)
    (symID storageGroupID : string) : M S (list string) :=
  iter <- GetVolumesInStorageGroupIterator symID storageGroupID ;;
  volumeIteratorToVolIDList api fuel iter.

Definition CreateVolumeInProtectedStorageGroupS (fuel : nat)
    (symID remoteSymID storageGroupID remoteStorageGroupID volumeName : string)
    (sizeInCylinders : Z) (opts : list Header) : M S Volume :=
  _ <- checkAllowedArray IsAllowedArray symID ;;
  if len_string volumeName >? MaxVolIdentifierLength
  then fail "Length of volumeName exceeds max limit"
  else
    let payload :=
      GetCreateVolInSGPayload payloadHasSetMetaData sizeInCylinders
        volumeName true remoteSymID remoteStorageGroupID opts in
    r <- try (UpdateStorageGroupS api IsAllowedArray symID storageGroupID
                                  payload) ;;
    match r with
    | inl e => fail ("couldn't create volume. error - " +:+ e)
    | inr _ =>
        GetVolumeByIdentifier api IsAllowedArray Errorf0 fuel symID
          storageGroupID volumeName sizeInCylinders
    end.

Definition AddVolumesToStorageGroupS (symID storageGroupID : string)
    (force : bool) (volumeIDs : list string) : M S unit :=
  _ <- checkAllowedArray IsAllowedArray symID ;;
  if len volumeIDs =? 0
  then fail "at least one volume id has to be specified"
  else
    let payload := GetAddVolumeToSGPayload true force "" "" volumeIDs in
    r <- try (UpdateStorageGroupS api IsAllowedArray symID storageGroupID
                                  payload) ;;
    match r with
    | inl e =>
        fail ("An error(" +:+ e +:+ ") was returned from UpdateStorageGroup")
    | inr _ => ret tt
    end.

Definition AddVolumesToProtectedStorageGroup
    (symID storageGroupID remoteSymID remoteStorageGroupID : string)
    (force : bool) (volumeIDs : list string) : M S unit :=
  _ <- checkAllowedArray IsAllowedArray symID ;;
  if len volumeIDs =? 0
  then fail "at least one volume id has to be specified"
  else
    let payload :=
      GetAddVolumeToSGPayload true force remoteSymID remoteStorageGroupID
                              volumeIDs in
    r <- try (UpdateStorageGroupS api IsAllowedArray symID storageGroupID
                                  payload) ;;
    match r with
    | inl e =>
        fail ("An error(" +:+ e +:+ ") was returned from UpdateStorageGroup")
    | inr _ => ret tt
    end.

End PmaxMore.

(** ** [sloprovisioning.go]: the initiators of a host *)

(** [Host], with the fields [UpdateHostInitiators] reads. *)
Record Host : Type := mkHost {
  HostID : string;
  Initiators : list string
}.

(** The payloads of a host PUT: the initiators to add or to remove, each
    with the synchronous execution option. *)
Inductive UpdateHostParam : Type :=
| UpdateHostAddInitiatorsParam (initiators : list string)
| UpdateHostRemoveInititorsParam (initiators : list string).

Fixpoint stringInSlice (a : string) (list : list string) : bool :=
  match list with
  | [] => false
  | b :: rest => if decide (b = a) then true else stringInSlice a rest
  end.

(** [for _, init := range l { if !stringInSlice(init, other) { out =
    append(out, init) } }]. *)
Fixpoint notInSlice (l other : list string) : list string :=
  match l with
  | [] => []
  | init :: rest =>
      if stringInSlice init other then notInSlice rest other
      else init :: notInSlice rest other
  end.

Section PmaxHosts.

Context {S : Type}.

(** [c.api.Put] of a host: the server sees the host id of the URL and the
    payload; the response is decoded into [updatedHost], whose content
    before the call is the last argument but one. The log of requests. *)
Variable api_PutHost :
  string -> string -> UpdateHostParam -> Host -> S -> (string + Host) * S.
Variable IsAllowedArray : string -> bool * option string.

Definition HostWorld : Type := S * list (string * UpdateHostParam).

Definition putHost (symID hostID : string) (param : UpdateHostParam)
    (updatedHost : Host) (w : HostWorld) : (string + Host) * HostWorld :=
  let '(r, s') := api_PutHost symID hostID param updatedHost (fst w) in
  (r, (s', snd w ++ [(hostID, param)])).

(** [host] is [None] for a nil pointer. *)
Definition UpdateHostInitiators (symID : string) (host : option Host)
    (initiatorIDs : list string) (w : HostWorld)
  : outcome Host * HostWorld :=
  match IsAllowedArray symID with
  | (_, Some e) => (Err e, w)
  | (_, None) =>
      match host with
      | None => (Err "Host can't be nil", w)
      | Some host =>
          let updatedHost := mkHost "" [] in
          let initAdd := notInSlice initiatorIDs (Initiators host) in
          let initRemove := notInSlice (Initiators host) initiatorIDs in
          let added :=
            if len initAdd >? 0
            then putHost symID (HostID host)
                         (UpdateHostAddInitiatorsParam initAdd) updatedHost w
            else (inr updatedHost, w) in
          match added with
          | (inl e, w1) => (Err e, w1)
          | (inr updatedHost, w1) =>
              if len initRemove >? 0
              then
                match putHost symID (HostID host)
                        (UpdateHostRemoveInititorsParam initRemove)
                        updatedHost w1 with
                | (inl e, w2) => (Err e, w2)
                | (inr updatedHost, w2) => (Ok updatedHost, w2)
                end
              else (Ok updatedHost, w1)
          end
      end
  end.

End PmaxHosts.

(** ** [types/v100]: the resource of a job *)

(** [strings.Split(s, sep)] for a separator [sep] of one byte. *)
Fixpoint Split (s : string) (sep : Ascii.ascii) : list string :=
  match s with
  | EmptyString => [EmptyString]
  | String a s' =>
      if decide (a = sep) then EmptyString :: Split s' sep
      else match Split s' sep with
           | first :: rest => String a first :: rest
           | [] => [String a EmptyString]
           end
  end.

(** [parts[i]] for an index in range; the callers check the range. *)
Definition part (parts : list string) (i : nat) : string :=
  default "" (parts !! i).

Definition GetJobResource (j : Job) : string * string * string :=
  if decide (ResourceLink j = "") then ("", "", "")
  else
    let parts := Split (ResourceLink j) "/"%char in
    let nparts := length parts in
    if decide (nparts < 3)%nat then ("", "", "")
    else (part parts (nparts - 3), part parts (nparts - 2),
          part parts (nparts - 1)).

(** ** More of the mock: helpers on slices, the port-group table *)

Module mockpg.

(** [compareAndCheck]: the nested loops return false at the first pair
    of equal items. *)
Fixpoint compareAndCheck (slice1 slice2 : list string) : bool :=
  match slice1 with
  | [] => true
  | item :: rest =>
      if existsb (fun item1 => bool_decide (item = item1)) slice2 then false
      else compareAndCheck rest slice2
  end.

(** The loop of [uniqueElements] over the rest of the slice, with the
    map [keys] and the list [uniq] built so far. *)
Fixpoint uniqueElements_loop (slice : list string) (keys : gmap string bool)
    (uniq : list string) : list string :=
  match slice with
  | [] => uniq
  | entry :: rest =>
      match keys !! entry with
      | Some _ => uniqueElements_loop rest keys uniq
      | None => uniqueElements_loop rest (<[entry := true]> keys)
                                    (uniq ++ [entry])
      end
  end.

Definition uniqueElements (slice : list string) : list string :=
  uniqueElements_loop slice ∅ [].

Record PortKey : Type := mkPortKey {
  DirectorID : string;
  PortID : string
}.


(** [types.PortGroup], with the fields the table functions write. *)
Record PortGroup : Type := mkPortGroup {
  PortGroupID : string;
  SymmetrixPortKey : list PortKey;
  NumberPorts : Z;
  NumberMaskingViews : Z;
  PortGroupType : string
}.



Definition samePort (thisKey keyToRemove : PortKey) : bool :=
  bool_decide (DirectorID thisKey = DirectorID keyToRemove)
  && bool_decide (PortID thisKey = PortID keyToRemove).

(** The search loop of [removePortKey]: the index of the first match,
    counted from [it]. *)
Fixpoint findPortKey (slice : list PortKey) (keyToRemove : PortKey)
    (it : nat) : option nat :=
  match slice with
  | [] => None
  | thisKey :: rest =>
      if samePort thisKey keyToRemove then Some it
      else findPortKey rest keyToRemove (Datatypes.S it)
  end.

(** [removePortKey]: the value of the slice it returns. *)
Definition removePortKey (slice : list PortKey) (keyToRemove : PortKey)
  : list PortKey :=
  match findPortKey slice keyToRemove 0 with
  | Some index => take index slice ++ drop (Datatypes.S index) slice
  | None => slice
  end.

(** [Data.PortGroupIDToPortGroup]. *)
Definition Table : Type := gmap string PortGroup.

Definition newPortGroup (portGroupID portGroupType : string)
    (portKeys : list PortKey) (t : Table) : Table :=
  <[portGroupID := mkPortGroup portGroupID portKeys (len portKeys) 0
                     portGroupType]> t.

(** [addPortGroup]: the error, or the pointer that the table holds for
    the id after [newPortGroup]. *)
Definition addPortGroup (portGroupID portGroupType : string)
    (portKeys : list PortKey) (t : Table)
  : (string + option PortGroup) * Table :=
  match t !! portGroupID with
  | Some _ => (inl "Error! Port Group already exists", t)
  | None =>
      let t' := newPortGroup portGroupID portGroupType portKeys t in
      (inr (t' !! portGroupID), t')
  end.


Definition DeletePortGroup (portGroupID : string) (t : Table)
  : (string + PortGroup) * Table :=
  match t !! portGroupID with
  | None =>
      (inl ("Error! PortGroup " +:+ portGroupID +:+ " does not exist."), t)
  | Some pg => (inr pg, delete portGroupID t)
  end.

(** The loop of [AddPortGroup] over the port identifiers: the keys, or
    the identifier that does not split in two at [":"]. *)
Fixpoint portKeysOf (portIdentifiers : list string) (portKeys : list PortKey)
  : string + list PortKey :=
  match portIdentifiers with
  | [] => inr portKeys
  | dirPortKey :: rest =>
      let dirPortDetails := Split dirPortKey ":"%char in
      if decide (length dirPortDetails = 2%nat)
      then portKeysOf rest
             (portKeys ++ [mkPortKey (part dirPortDetails 0) dirPortKey])
      else inl dirPortKey
  end.

(** [AddPortGroup]; [Errorf0] renders [fmt.Errorf(errormsg)]. *)
Definition AddPortGroup (Errorf0 : string -> string)
    (portGroupID portGroupType : string) (portIdentifiers : list string)
    (t : Table) : (string + option PortGroup) * Table :=
  match portKeysOf portIdentifiers [] with
  | inl dirPortKey =>
      (inl (Errorf0 ("Invalid dir port specified: " +:+ dirPortKey)), t)
  | inr portKeys =>
      match t !! portGroupID with
      | Some _ => (inl "Error! Port Group already exists", t)
      | None =>
          let t' := newPortGroup portGroupID portGroupType portKeys t in
          (inr (t' !! portGroupID), t')
      end
  end.

End mockpg.

(** ** The creation of a storage group: the client's payload and the
    mock's tables of storage groups and volumes *)

(** [types.SLOBasedStorageGroupParam] and [types.CreateStorageGroupParam],
    with the fields [GetCreateStorageGroupPayload] sets; the volume
    attributes of the former are the constant it writes (size "0", unit
    "CYL", no volumes). *)
Record SLOBasedStorageGroupParam : Type := mkSLOBasedStorageGroupParam {
  SLOID : string;
  WorkloadSelection : string;
  AllocateCapacityForEachVol : bool;
  NoCompression : bool
}.

Record CreateStorageGroupParam : Type := mkCreateStorageGroupParam {
  cp_StorageGroupID : string;
  cp_SRPID : string;
  cp_Emulation : string;
  cp_ExecutionOption : string;
  cp_SLOBasedStorageGroupParam : list SLOBasedStorageGroupParam
}.

Definition Emulation : string := "FBA".

Definition GetCreateStorageGroupPayload
    (storageGroupID srpID serviceLevel : string) (thickVolumes : bool)
  : CreateStorageGroupParam :=
  let workload := "None" in
  let sloParams :=
    if decide (srpID = "None") then []
    else [mkSLOBasedStorageGroupParam serviceLevel workload thickVolumes
            thickVolumes] in
  mkCreateStorageGroupParam storageGroupID srpID Emulation
    ExecutionOptionSynchronous sloParams.

Module mocksg.

(** [strings.Contains]. *)
Fixpoint Contains (s substr : string) : bool :=
  String.prefix substr s
  || match s with
     | EmptyString => false
     | String _ s' => Contains s' substr
     end.

(** [types.StorageGroup] and [types.Volume], with the fields that the
    table functions write with something else than a constant. *)
Record StorageGroup : Type := mkStorageGroup {
  StorageGroupID : string;
  SLO : string;
  SRP : string;
  NumOfVolumes : Z;
  NumOfMaskingViews : Z;
  MaskingView : list string
}.

Record Volume : Type := mkVolume {
  VolumeID : string;
  VolumeIdentifier : string;
  CapacityCYL : Z;
  WWN : string;
  NumberOfStorageGroups : Z;
  NumberOfFrontEndPaths : Z;
  StorageGroupIDList : list string
}.

(** The three tables of [Data]. The values of [VolumeIDToVolume] are
    pointers: [None] is the nil that [deleteVolume] stores. *)
Record Tables : Type := mkTables {
  VolumeIDToVolume : gmap string (option Volume);
  StorageGroupIDToStorageGroup : gmap string StorageGroup;
  StorageGroupIDToVolumes : gmap string (list string)
}.

Definition newStorageGroup
    (storageGroupID maskingViewID storageResourcePoolID serviceLevel : string)
    (numOfVolumes : Z) (d : Tables) : Tables :=
  let numOfMaskingViews := if decide (maskingViewID = "") then 0 else 1 in
  let maskingViews :=
    if decide (maskingViewID = "") then [] else [maskingViewID] in
  mkTables (VolumeIDToVolume d)
    (<[storageGroupID :=
         mkStorageGroup storageGroupID serviceLevel storageResourcePoolID
           numOfVolumes numOfMaskingViews maskingViews]>
       (StorageGroupIDToStorageGroup d))
    (<[storageGroupID := []]> (StorageGroupIDToVolumes d)).

Definition AddStorageGroup
    (storageGroupID storageResourcePoolID serviceLevel : string) (d : Tables)
  : (string + option StorageGroup) * Tables :=
  match StorageGroupIDToStorageGroup d !! storageGroupID with
  | Some _ => (inl "The requested storage group resource already exists", d)
  | None =>
      let d' :=
        newStorageGroup storageGroupID "" storageResourcePoolID serviceLevel
                        0 d in
      (inr (StorageGroupIDToStorageGroup d' !! storageGroupID), d')
  end.

(** [AddStorageGroupFromCreateParams]; [None] is the panic of
    [sloBasedParams[0]] on an empty slice. *)
Definition AddStorageGroupFromCreateParams
    (createParams : CreateStorageGroupParam) (d : Tables) : option Tables :=
  let sgID := cp_StorageGroupID createParams in
  let srpID := cp_SRPID createParams in
  if decide (srpID = "None")
  then Some (snd (AddStorageGroup sgID "" "None" d))
  else
    match cp_SLOBasedStorageGroupParam createParams with
    | [] => None
    | first :: _ => Some (snd (AddStorageGroup sgID srpID (SLOID first) d))
    end.

(** [RemoveStorageGroup]: the status it writes (200 when it writes none)
    and the tables. The group is deleted from
    [StorageGroupIDToStorageGroup], twice; nothing is deleted from
    [StorageGroupIDToVolumes]. *)
Definition RemoveStorageGroup (storageGroupID : string) (d : Tables)
  : Z * Tables :=
  match StorageGroupIDToStorageGroup d !! storageGroupID with
  | None => (mock.StatusNotFound, d)
  | Some sg =>
      if decide (NumOfMaskingViews sg = 0) then
        let volumes :=
          default [] (StorageGroupIDToVolumes d !! storageGroupID) in
        if len volumes >? 0 then (mock.StatusInternalServerError, d)
        else
          (200,
           mkTables (VolumeIDToVolume d)
             (delete storageGroupID
                (delete storageGroupID (StorageGroupIDToStorageGroup d)))
             (StorageGroupIDToVolumes d))
      else (mock.StatusInternalServerError, d)
  end.

Definition newVolume (volumeID volumeIdentifier : string) (size : Z)
    (sgList : list string) (d : Tables) : Tables :=
  mkTables
    (<[volumeID :=
         Some (mkVolume volumeID volumeIdentifier size
                 ("600009700001979000465330303" +:+ volumeID) 1 0 sgList)]>
       (VolumeIDToVolume d))
    (StorageGroupIDToStorageGroup d) (StorageGroupIDToVolumes d).

Definition withNumOfVolumes (sg : StorageGroup) (n : Z) : StorageGroup :=
  mkStorageGroup (StorageGroupID sg) (SLO sg) (SRP sg) n
                 (NumOfMaskingViews sg) (MaskingView sg).

Definition AddNewVolume (volumeID volumeIdentifier : string) (size : Z)
    (storageGroupID : string) (d : Tables) : outcome unit * Tables :=
  match VolumeIDToVolume d !! volumeID with
  | Some _ => (Err "The requested volume already exists", d)
  | None =>
      match StorageGroupIDToStorageGroup d !! storageGroupID with
      | None =>
          (Err "The requested storage group resource doesn't exist", d)
      | Some sg =>
          let d1 := newVolume volumeID volumeIdentifier size [storageGroupID]
                              d in
          let currentVolumes :=
            default [] (StorageGroupIDToVolumes d1 !! storageGroupID) in
          (Ok tt,
           mkTables (VolumeIDToVolume d1)
             (<[storageGroupID :=
                  withNumOfVolumes sg (GoInt.add (NumOfVolumes sg) 1)]>
                (StorageGroupIDToStorageGroup d1))
             (<[storageGroupID := currentVolumes ++ [volumeID]]>
                (StorageGroupIDToVolumes d1)))
      end
  end.

Definition AddOneVolumeToStorageGroup
    (volumeID volumeIdentifier sgID : string) (size : Z) (d : Tables)
  : outcome unit * Tables :=
  match StorageGroupIDToStorageGroup d !! sgID with
  | None => (Err "The requested storage group doesn't exist", d)
  | Some sg =>
      match VolumeIDToVolume d !! volumeID with
      | Some pointer =>
          match StorageGroupIDToVolumes d !! sgID with
          | Some volumes =>
              if existsb (fun volume => Contains volume volumeID) volumes
              then (Err "Volume is already a part of the SG", d)
              else
                match pointer with
                | None =>
                    (Panic "invalid memory address or nil pointer dereference",
                     d)
                | Some vol =>
                    let paths :=
                      if NumOfMaskingViews sg >? 0 then 1
                      else NumberOfFrontEndPaths vol in
                    let vol' :=
                      mkVolume (VolumeID vol) (VolumeIdentifier vol)
                        (CapacityCYL vol) (WWN vol)
                        (GoInt.add (NumberOfStorageGroups vol) 1) paths
                        (StorageGroupIDList vol ++ [sgID]) in
                    (Ok tt,
                     mkTables
                       (<[volumeID := Some vol']> (VolumeIDToVolume d))
                       (<[sgID :=
                            withNumOfVolumes sg
                              (GoInt.add (NumOfVolumes sg) 1)]>
                          (StorageGroupIDToStorageGroup d))
                       (<[sgID := volumes ++ [volumeID]]>
                          (StorageGroupIDToVolumes d)))
                end
          | None => (Ok tt, d)
          end
      | None =>
          (Ok tt,
           snd (AddNewVolume volumeID volumeIdentifier size sgID d))
      end
  end.

(** The last loop of [removeOneVolumeFromStorageGroup]: whether no
    storage group of the list is in more than one masking view. *)
Definition noGroupInSeveralViews (sgs : gmap string StorageGroup)
    (sgIDs : list string) : bool :=
  forallb (fun sgID =>
             match sgs !! sgID with
             | Some sg => negb (NumOfMaskingViews sg >? 1)
             | None => true
             end) sgIDs.

Definition removeOneVolumeFromStorageGroup (volumeID storageGroupID : string)
    (d : Tables) : outcome unit * Tables :=
  match StorageGroupIDToStorageGroup d !! storageGroupID with
  | None => (Err "The requested storage group doesn't exist", d)
  | Some sg =>
      match StorageGroupIDToVolumes d !! storageGroupID with
      | None => (Err "Storage Group to volume mapping doesn't exist", d)
      | Some currentVolumeIDs =>
          match VolumeIDToVolume d !! volumeID with
          | None => (Err "The requested volume doesn't exist", d)
          | Some None =>
              (Panic "invalid memory address or nil pointer dereference", d)
          | Some (Some vol) =>
              let newStorageGroupList :=
                filter (fun sgID => sgID <> storageGroupID)
                       (StorageGroupIDList vol) in
              let newVolumeIDList :=
                filter (fun volID => volID <> volumeID) currentVolumeIDs in
              let sgs :=
                <[storageGroupID :=
                    withNumOfVolumes sg (GoInt.sub (NumOfVolumes sg) 1)]>
                  (StorageGroupIDToStorageGroup d) in
              let paths :=
                if noGroupInSeveralViews sgs newStorageGroupList then 0
                else NumberOfFrontEndPaths vol in
              let vol' :=
                mkVolume (VolumeID vol) (VolumeIdentifier vol)
                  (CapacityCYL vol) (WWN vol)
                  (GoInt.sub (NumberOfStorageGroups vol) 1) paths
                  newStorageGroupList in
              (Ok tt,
               mkTables (<[volumeID := Some vol']> (VolumeIDToVolume d)) sgs
                 (<[storageGroupID := newVolumeIDList]>
                    (StorageGroupIDToVolumes d)))
          end
      end
  end.

Definition deleteVolume (volID : string) (d : Tables)
  : outcome unit * Tables :=
  match VolumeIDToVolume d !! volID with
  | Some None =>
      (Panic "invalid memory address or nil pointer dereference", d)
  | Some (Some vol) =>
      if NumberOfStorageGroups vol >? 0
      then (Err "Volume present in storage group. Can't be deleted", d)
      else
        (Ok tt,
         mkTables (<[volID := None]> (VolumeIDToVolume d))
           (StorageGroupIDToStorageGroup d) (StorageGroupIDToVolumes d))
  | None => (Err "Volume not found", d)
  end.

End mocksg.

(** ** The log of the drain *)



Section Log.

Context {S : Type}.
Variable api : Api S.

(** The package variable [logResponseTimes], and the message that
    [TimeSpent] formats for a function name from two readings of the clock,
    [fmt.Sprintf("pmax-time: %s took %.2f seconds to complete", ...)]. The
    callers of the drain pass a name that is not empty. *)
Variable logResponseTimes : bool.
Variable tookMessage : string -> string.

(** Whether the page GET that fails in a state of the server fails in
    [c.api.DoAndGetResponseBody], whose error [GetVolumeIDsIteratorPage]
    logs, and not in [c.checkResponse] or in the decoder, whose errors it
    returns without an entry: the transport record has one error for the
    three. *)
Variable failsInTransport : string -> Z -> Z -> S -> bool.






End Log.

(** ** More examples *)

(** An array check that refuses every array. *)
Definition noArrayAllowed (symID : string) : bool * option string :=
  (false, Some "the requested array is ignored as it is not managed").

(** A transport whose volumes all have 10 cylinders and are in the
    storage group ["sg1"]. *)
Definition volumesInSG1 : Api mock.State :=
  {| api_GetVolumes := api_GetVolumes noTables;
     api_GetIteratorPage := api_GetIteratorPage noTables;
     api_DeleteIterator := api_DeleteIterator noTables;
     api_GetVolume := fun _ volumeID st =>
       (inr (mkVolume volumeID "vol1" 10 ["sg1"]), st);
     api_PutStorageGroup := api_PutStorageGroup noTables;
     api_PutStorageGroupS := api_PutStorageGroupS noTables |}.

(** A job that is still running. *)
Definition runningJob : Job := mkJob "job1" "RUNNING" "" "" "".

(** A host PUT that answers with the bare host. *)
Definition putHostOK (symID hostID : string) (param : UpdateHostParam)
    (updatedHost : Host) (s : unit) : (string + Host) * unit :=
  (inr (mkHost hostID []), s).

(** The tables of the mock: empty, with the storage group ["sg1"], with a
    volume in no storage group, and with the volume ["0010"] in the
    storage group beside the volume ["001"] of no group. *)
Definition emptyTables : mocksg.Tables := mocksg.mkTables ∅ ∅ ∅.

Definition oneGroupTables : mocksg.Tables :=
  snd (mocksg.AddStorageGroup "sg1" "SRP_1" "Diamond" emptyTables).

Definition looseVolume (volumeID : string) : mocksg.Volume :=
  mocksg.mkVolume volumeID "vol1" 10
    ("600009700001979000465330303" +:+ volumeID) 0 0 [].

Definition looseVolumeTables : mocksg.Tables :=
  mocksg.mkTables (<["v1" := Some (looseVolume "v1")]> ∅) ∅ ∅.

Definition substringTables : mocksg.Tables :=
  mocksg.mkTables
    (<["001" := Some (looseVolume "001")]>
       (mocksg.VolumeIDToVolume
          (snd (mocksg.AddNewVolume "0010" "vol2" 10 "sg1" oneGroupTables))))
    (mocksg.StorageGroupIDToStorageGroup
       (snd (mocksg.AddNewVolume "0010" "vol2" 10 "sg1" oneGroupTables)))
    (mocksg.StorageGroupIDToVolumes
       (snd (mocksg.AddNewVolume "0010" "vol2" 10 "sg1" oneGroupTables))).

(** Port keys and a port group. *)
Definition portA : mockpg.PortKey := mockpg.mkPortKey "FA-1D" "FA-1D:4".
Definition portB : mockpg.PortKey := mockpg.mkPortKey "FA-2D" "FA-2D:4".

Definition onePortGroup : mockpg.PortGroup :=
  mockpg.mkPortGroup "pg1" [portA] 1 0 "Fibre".

(** ** Abbreviations of the statements *)

(** The message of the count check of [volumeIteratorToVolIDList],
    [fmt.Errorf("Expected %d ids but got %d ids", ...)]. *)
Definition countMismatch (count got : Z) : string :=
  "Expected " +:+ GoInt.itoa count +:+ " ids but got "
  +:+ GoInt.itoa got +:+ " ids".

(** A string without the separator: it is not of the form [s1 sep s2]. *)
Definition free_of (sep : Ascii.ascii) (x : string) : Prop :=
  forall s1 s2 : string, x <> s1 +:+ String sep s2.


(** * Properties *)

(** ** Arithmetic of [int] *)

Lemma wrap_in_range (z : Z) : GoInt.in_range z -> GoInt.wrap z = z.
Proof.
  unfold GoInt.in_range, GoInt.min_int, GoInt.max_int, GoInt.wrap.
  intros H. rewrite Z.mod_small; lia.
Qed.

Lemma wrap_range (z : Z) : GoInt.in_range (GoInt.wrap z).
Proof.
  unfold GoInt.in_range, GoInt.min_int, GoInt.max_int, GoInt.wrap.
  pose proof (Z.mod_pos_bound (z + 2 ^ 63) (2 ^ 64)). lia.
Qed.

Lemma add_exact (a b : Z) : GoInt.in_range (a + b) -> GoInt.add a b = a + b.
Proof. apply wrap_in_range. Qed.

Lemma sub_exact (a b : Z) : GoInt.in_range (a - b) -> GoInt.sub a b = a - b.
Proof. apply wrap_in_range. Qed.

(** Rewrites the wrapped sums and differences of the goal whose exact
    values are in range by [lia]. *)
Ltac exact_int :=
  repeat first
    [ rewrite add_exact
        by (unfold GoInt.in_range, GoInt.min_int, GoInt.max_int; lia)
    | rewrite sub_exact
        by (unfold GoInt.in_range, GoInt.min_int, GoInt.max_int; lia) ].

(** ** The copy loop of a page *)

Lemma fillVolumeIDs_fits (src : list VolumeIDList) :
  forall (i : nat) (dst : list string),
    (i + length src <= length dst)%nat ->
    fillVolumeIDs src i dst
    = Some (take i dst ++ map VolumeIDs src ++ drop (i + length src) dst).
Proof.
  induction src as [|v rest IH]; intros i dst Hlen; simpl in *.
  - rewrite Nat.add_0_r. by rewrite take_drop.
  - destruct (decide (i < length dst)%nat) as [Hi|Hi]; [|lia].
    rewrite IH by (rewrite length_insert; lia).
    f_equal.
    rewrite drop_insert_lt by lia.
    rewrite (insert_take_drop dst i (VolumeIDs v)) by done.
    replace (Datatypes.S i) with (i + 1)%nat by lia.
    rewrite take_app_add' by (rewrite length_take; lia).
    simpl. rewrite take_0, <- app_assoc. simpl.
    by replace (i + 1 + length rest)%nat with (i + Datatypes.S (length rest))%nat
      by lia.
Qed.

Lemma fillVolumeIDs_overflows (src : list VolumeIDList) :
  forall (i : nat) (dst : list string),
    src <> [] ->
    (length dst < i + length src)%nat ->
    fillVolumeIDs src i dst = None.
Proof.
  induction src as [|v rest IH]; intros i dst Hne Hlen; [done|].
  simpl in *. destruct (decide (i < length dst)%nat) as [Hi|Hi]; [|done].
  destruct rest as [|v' rest'].
  - simpl in Hlen. lia.
  - apply IH; [done|]. rewrite length_insert. simpl in *. lia.
Qed.

Lemma makeAndFill_Ok (n : Z) (src : list VolumeIDList) (l : list string) :
  makeAndFill n src = Ok l ->
  0 <= n /\ len src <= n /\
  l = map VolumeIDs src ++ replicate (Z.to_nat n - length src) "".
Proof.
  unfold makeAndFill, len. intros H.
  destruct (n <? 0) eqn:Hn; [done|]. apply Z.ltb_ge in Hn.
  destruct (decide (length src <= Z.to_nat n)%nat) as [Hle|Hgt].
  - rewrite fillVolumeIDs_fits in H by (rewrite length_replicate; lia).
    simpl in H. injection H as <-.
    split; [done|]. split; [lia|].
    f_equal. rewrite drop_replicate. done.
  - rewrite fillVolumeIDs_overflows in H; [done| |].
    + intros ->. simpl in Hgt. lia.
    + rewrite length_replicate. lia.
Qed.

Lemma makeAndFill_length (n : Z) (src : list VolumeIDList) (l : list string) :
  makeAndFill n src = Ok l -> len l = n.
Proof.
  intros H. apply makeAndFill_Ok in H as (Hn & Hsrc & ->).
  unfold len in *. rewrite length_app, length_map, length_replicate. lia.
Qed.

Lemma wrap_wrap_add (a b : Z) : GoInt.wrap (GoInt.wrap a + b) = GoInt.wrap (a + b).
Proof.
  unfold GoInt.wrap. f_equal.
  replace ((a + 2 ^ 63) mod 2 ^ 64 - 2 ^ 63 + b + 2 ^ 63)
    with ((a + 2 ^ 63) mod 2 ^ 64 + b) by lia.
  rewrite Zplus_mod_idemp_l. f_equal. lia.
Qed.

(** ** One page *)

Section PageFacts.

Context {S : Type}.
Variable api : Api S.

Lemma GetVolumeIDsIteratorPage_eq (iter : VolumeIterator) (from to : Z)
    (w : World S) :
  GetVolumeIDsIteratorPage api iter from to w =
  let to' := pageTo iter from to in
  let w' s' := mkWorld s' (calls w ++ [GetIteratorPage (ID iter) from to']) in
  match api_GetIteratorPage api (ID iter) from to' (server w) with
  | (inl e, s') => (Err e, w' s')
  | (inr result, s') =>
      (makeAndFill (GoInt.add (GoInt.sub to' from) 1) (VolumeList result),
       w' s')
  end.
Proof.
  unfold GetVolumeIDsIteratorPage, bind, request. simpl.
  destruct (api_GetIteratorPage api (ID iter) from (pageTo iter from to)
                                (server w)) as [[e|result] s']; done.
Qed.

Lemma GetVolumeIDsIteratorPage_calls (iter : VolumeIterator) (from to : Z)
    (w : World S) :
  calls (snd (GetVolumeIDsIteratorPage api iter from to w))
  = calls w ++ [GetIteratorPage (ID iter) from (pageTo iter from to)].
Proof.
  rewrite GetVolumeIDsIteratorPage_eq. simpl.
  destruct (api_GetIteratorPage api (ID iter) from (pageTo iter from to)
                                (server w)) as [[e|result] s']; done.
Qed.

Lemma GetVolumeIDsIteratorPage_Ok_length (iter : VolumeIterator)
    (from to : Z) (w w' : World S) (l : list string) :
  GetVolumeIDsIteratorPage api iter from to w = (Ok l, w') ->
  len l = GoInt.add (GoInt.sub (pageTo iter from to) from) 1.
Proof.
  rewrite GetVolumeIDsIteratorPage_eq. simpl.
  destruct (api_GetIteratorPage api (ID iter) from (pageTo iter from to)
                                (server w)) as [[e|result] s']; [done|].
  intros H. injection H as Hfill _. by apply makeAndFill_length in Hfill.
Qed.

Lemma GetVolumeIDsIteratorPage_returns (iter : VolumeIterator)
    (from to : Z) (w : World S) :
  is_OutOfFuel (fst (GetVolumeIDsIteratorPage api iter from to w)) = false.
Proof.
  rewrite GetVolumeIDsIteratorPage_eq. cbv zeta.
  destruct (api_GetIteratorPage api (ID iter) from (pageTo iter from to)
                                (server w)) as [[e|result] s']; [done|].
  unfold fst, makeAndFill.
  destruct (GoInt.add (GoInt.sub (pageTo iter from to) from) 1 <? 0);
    [done|].
  by destruct (fillVolumeIDs (VolumeList result) 0 _).
Qed.

End PageFacts.

Lemma pageTo_le_Count (iter : VolumeIterator) (from to : Z) :
  pageTo iter from to <= Count iter.
Proof.
  unfold pageTo, clampTo.
  destruct (defaultTo iter from to >? Count iter) eqn:H; [lia|].
  rewrite Z.gtb_ltb in H. apply Z.ltb_ge in H. done.
Qed.

Lemma pageTo_span (iter : VolumeIterator) (from to : Z) :
  GoInt.small from -> GoInt.small to -> GoInt.small (MaxPageSize iter) ->
  pageTo iter from to - from + 1 <= MaxPageSize iter.
Proof.
  unfold GoInt.small. intros Hf Ht Hm.
  assert (defaultTo iter from to - from + 1 <= MaxPageSize iter) as Hd.
  { unfold defaultTo.
    destruct ((to =? 0)
              || (GoInt.add (GoInt.sub to from) 1 >? MaxPageSize iter)) eqn:Hc.
    - exact_int. lia.
    - apply orb_false_iff in Hc as [_ Hc]. revert Hc. exact_int.
      rewrite Z.gtb_ltb. intros Hc. apply Z.ltb_ge in Hc. done. }
  unfold pageTo, clampTo.
  destruct (defaultTo iter from to >? Count iter) eqn:H; [|done].
  rewrite Z.gtb_ltb in H. apply Z.ltb_lt in H. lia.
Qed.

(** C6. Page-range defaulting and clamping: every call of
    [GetVolumeIDsIteratorPage iter from to] requests the range from [from]
    to the adjusted [to]; a zero [to] is first set to
    [from + MaxPageSize - 1]; the adjusted [to] is the clamp of that value
    to [Count], so it never exceeds [Count]; and, the operands being small
    enough for the sums of the code not to wrap around, the range never
    spans more than [MaxPageSize] elements. *)
Theorem page_range_defaulted_and_clamped {S : Type} (api : Api S)
    (iter : VolumeIterator) (from to : Z) (w : World S) :
  calls (snd (GetVolumeIDsIteratorPage api iter from to w))
  = calls w ++ [GetIteratorPage (ID iter) from (pageTo iter from to)]
  /\ (to = 0 ->
      defaultTo iter from to = GoInt.sub (GoInt.add from (MaxPageSize iter)) 1)
  /\ pageTo iter from to
     = (if defaultTo iter from to >? Count iter then Count iter
        else defaultTo iter from to)
  /\ pageTo iter from to <= Count iter
  /\ (GoInt.small from -> GoInt.small to -> GoInt.small (MaxPageSize iter) ->
      pageTo iter from to - from + 1 <= MaxPageSize iter).
Proof.
  split; [apply GetVolumeIDsIteratorPage_calls|].
  split; [by intros ->|].
  split; [done|].
  split; [apply pageTo_le_Count|apply pageTo_span].
Qed.

(** C9. Page length: a successful call of [GetVolumeIDsIteratorPage] with
    adjusted range from [from] to [to'] returns a slice of length
    [to' - from + 1] (the Go expression, which is the exact difference
    whenever that is an [int]), whatever the number of elements of the
    server's page: the elements of the page come first, in their order,
    and every position after them holds the empty string. *)
Theorem page_length_is_requested_range {S : Type} (api : Api S)
    (iter : VolumeIterator) (from to : Z) (w w' : World S) (l : list string) :
  GetVolumeIDsIteratorPage api iter from to w = (Ok l, w') ->
  exists (result : VolumeResultList) (s' : S),
    api_GetIteratorPage api (ID iter) from (pageTo iter from to) (server w)
    = (inr result, s')
    /\ len l = GoInt.add (GoInt.sub (pageTo iter from to) from) 1
    /\ (GoInt.in_range (pageTo iter from to - from + 1) ->
        len l = pageTo iter from to - from + 1)
    /\ (length (VolumeList result) <= length l)%nat
    /\ l = map VolumeIDs (VolumeList result)
           ++ replicate (length l - length (VolumeList result)) "".
Proof.
  rewrite GetVolumeIDsIteratorPage_eq. simpl.
  destruct (api_GetIteratorPage api (ID iter) from (pageTo iter from to)
                                (server w)) as [[e|result] s'] eqn:Hapi;
    [done|].
  intros H. injection H as Hfill _.
  exists result, s'. split; [done|].
  pose proof (makeAndFill_length _ _ _ Hfill) as Hlen.
  apply makeAndFill_Ok in Hfill as (Hn & Hsrc & Hl).
  split; [done|].
  split.
  { intros Hr. rewrite Hlen. unfold GoInt.add, GoInt.sub.
    rewrite wrap_wrap_add. by apply wrap_in_range. }
  unfold len in *. split; [lia|].
  rewrite Hl at 1. do 2 f_equal. lia.
Qed.

(** ** The drain *)

Section DrainFacts.

Context {S : Type}.



(** The value or error of the drain is that of its body: the deferred
    call contributes nothing to it. *)
Lemma drain_result_is_body (api : Api S) (iter : VolumeIterator)
    (fuel : nat) (w : World S) :
  fst (volumeIteratorToVolIDList api fuel iter w)
  = fst (volumeIteratorToVolIDList_body api fuel iter w).
Proof.
  unfold volumeIteratorToVolIDList, with_defer.
  destruct (MaxPageSize iter <? Count iter); [|done].
  destruct (volumeIteratorToVolIDList_body api fuel iter w)
    as [[l|e|m|] w1]; done.
Qed.

Variable api : Api S.

(** The requests of the loop are page GETs. *)
Lemma additionalPages_calls (iter : VolumeIterator) (fuel : nat) :
  forall (from : Z) (acc : list string) (w : World S),
    exists pages : list Call,
      Forall (fun c => isPageGet c = true) pages
      /\ calls (snd (additionalPages api fuel iter from acc w))
         = calls w ++ pages.
Proof.
  induction fuel as [|fuel IH]; intros from acc w; simpl.
  - exists []. rewrite app_nil_r. by destruct (from <=? Count iter).
  - destruct (from <=? Count iter);
      [|exists []; by rewrite app_nil_r].
    unfold bind.
    pose proof (GetVolumeIDsIteratorPage_calls api iter from 0 w) as Hc.
    destruct (GetVolumeIDsIteratorPage api iter from 0 w)
      as [[l|e|m|] w1]; simpl in Hc.
    + destruct (IH (GoInt.add from (len l)) (acc ++ l) w1)
        as (pages & Hp & ->).
      exists (GetIteratorPage (ID iter) from (pageTo iter from 0) :: pages).
      split; [by constructor|]. rewrite Hc, <- app_assoc. done.
    + exists [GetIteratorPage (ID iter) from (pageTo iter from 0)].
      split; [by repeat constructor|done].
    + exists [GetIteratorPage (ID iter) from (pageTo iter from 0)].
      split; [by repeat constructor|done].
    + exists [GetIteratorPage (ID iter) from (pageTo iter from 0)].
      split; [by repeat constructor|done].
Qed.

Lemma body_calls (iter : VolumeIterator) (fuel : nat) (w : World S) :
  exists pages : list Call,
    Forall (fun c => isPageGet c = true) pages
    /\ calls (snd (volumeIteratorToVolIDList_body api fuel iter w))
       = calls w ++ pages.
Proof.
  unfold volumeIteratorToVolIDList_body, bind.
  destruct (additionalPages_calls iter fuel
              (GoInt.add (To (ResultList iter)) 1)
              (map VolumeIDs (VolumeList (ResultList iter))) w)
    as (pages & Hp & Hc).
  exists pages. split; [done|].
  destruct (additionalPages api fuel iter _ _ w) as [[l|e|m|] w1];
    simpl in *; try done.
  by destruct (decide (len l = Count iter)).
Qed.

(** With a page size of at least one, every page the loop obtains moves
    [from] forward, and [Count - from + 1] rounds are enough. *)
Lemma additionalPages_returns (iter : VolumeIterator) :
  1 <= MaxPageSize iter ->
  GoInt.small (MaxPageSize iter) ->
  GoInt.small (Count iter) ->
  forall (fuel : nat) (from : Z) (acc : list string) (w : World S),
    - 2 ^ 62 <= from ->
    (Z.to_nat (Count iter - from + 1) <= fuel)%nat ->
    is_OutOfFuel (fst (additionalPages api fuel iter from acc w)) = false.
Proof.
  unfold GoInt.small. intros Hmax Hm Hc.
  induction fuel as [|fuel IH]; intros from acc w Hfrom Hfuel; simpl.
  - destruct (from <=? Count iter) eqn:Hle; [|done].
    apply Z.leb_le in Hle. lia.
  - destruct (from <=? Count iter) eqn:Hle; [|done].
    apply Z.leb_le in Hle. unfold bind.
    destruct (GetVolumeIDsIteratorPage api iter from 0 w)
      as [[l|e|m|] w1] eqn:Hpage; try done.
    + apply GetVolumeIDsIteratorPage_Ok_length in Hpage as Hlen.
      assert (pageTo iter from 0
              = Z.min (from + MaxPageSize iter - 1) (Count iter)) as Hto.
      { unfold pageTo, clampTo, defaultTo. simpl. exact_int.
        destruct (from + MaxPageSize iter - 1 >? Count iter) eqn:Hgt.
        - rewrite Z.gtb_ltb in Hgt. apply Z.ltb_lt in Hgt. lia.
        - rewrite Z.gtb_ltb in Hgt. apply Z.ltb_ge in Hgt. lia. }
      rewrite Hto in Hlen. revert Hlen. exact_int. intros Hlen.
      rewrite Hlen. exact_int. apply IH; lia.
    + pose proof (GetVolumeIDsIteratorPage_returns api iter from 0 w) as Hr.
      by rewrite Hpage in Hr.
Qed.

End DrainFacts.

Section LogFacts.

Context {S : Type}.
Variable logResponseTimes : bool.
Variable tookMessage : string -> string.
Variable failsInTransport : string -> Z -> Z -> S -> bool.







End LogFacts.



(** C4. Iterator release condition: with a page size of at least one (and
    sizes small enough for the sums of the code not to wrap around) the
    drain returns, and the requests it has issued are page GETs followed,
    exactly when [MaxPageSize < Count], by one DELETE of the iterator;
    when [Count <= MaxPageSize] there is no DELETE among them. *)
Theorem iterator_released_iff_multipage {S : Type} (api : Api S)
    (iter : VolumeIterator) (fuel : nat) (w : World S) :
  1 <= MaxPageSize iter ->
  GoInt.small (MaxPageSize iter) ->
  GoInt.small (Count iter) ->
  GoInt.small (To (ResultList iter)) ->
  (Z.to_nat (Count iter - To (ResultList iter)) <= fuel)%nat ->
  is_OutOfFuel (fst (volumeIteratorToVolIDList api fuel iter w)) = false
  /\ exists pages : list Call,
       Forall (fun c => isPageGet c = true) pages
       /\ calls (snd (volumeIteratorToVolIDList api fuel iter w))
          = calls w ++ pages
            ++ (if MaxPageSize iter <? Count iter
                then [DeleteIterator (ID iter)] else []).
Proof.
  intros Hmax Hm Hc Ht Hfuel.
  assert (is_OutOfFuel (fst (volumeIteratorToVolIDList_body api fuel iter w))
          = false) as Hret.
  { unfold volumeIteratorToVolIDList_body, bind.
    pose proof (additionalPages_returns api iter Hmax Hm Hc fuel
                  (GoInt.add (To (ResultList iter)) 1)
                  (map VolumeIDs (VolumeList (ResultList iter))) w) as Hr.
    unfold GoInt.small in *. revert Hr. exact_int. intros Hr.
    specialize (Hr ltac:(lia) ltac:(lia)).
    destruct (additionalPages api fuel iter _ _ w) as [[l|e|m|] w1];
      simpl in *; try done.
    by destruct (decide (len l = Count iter)). }
  split; [by rewrite drain_result_is_body|].
  destruct (body_calls api iter fuel w) as (pages & Hp & Hcalls).
  exists pages. split; [done|].
  unfold volumeIteratorToVolIDList, with_defer.
  destruct (MaxPageSize iter <? Count iter).
  - destruct (volumeIteratorToVolIDList_body api fuel iter w)
      as [[l|e|m|] w1]; simpl in *; try done;
      unfold DeleteVolumeIDsIterator, request_;
      destruct (api_DeleteIterator api (ID iter) (server w1)) as [[e'|] s'];
      simpl; rewrite Hcalls, <- app_assoc; done.
  - by rewrite app_nil_r.
Qed.

(** ** The operations on a storage group *)

Section OperationFacts.

Context {S : Type}.
Variable api : Api S.
Variable IsAllowedArray : string -> bool * option string.
Variable WaitOnJobCompletion : string -> string -> M S (option Job).
Variable JobToString : Job -> string.
Variable Errorf0 : string -> string.
Variable payloadHasSetMetaData : bool.

Lemma checkAllowedArray_allowed (symID : string) (allowed : bool)
    (w : World S) :
  IsAllowedArray symID = (allowed, None) ->
  checkAllowedArray IsAllowedArray symID w = (Ok tt, w).
Proof. unfold checkAllowedArray. by intros ->. Qed.

Lemma checkAllowedArray_unchanged (symID : string) (w : World S) :
  snd (checkAllowedArray (S := S) IsAllowedArray symID w) = w.
Proof.
  unfold checkAllowedArray.
  by destruct (IsAllowedArray symID) as [b [e|]].
Qed.

Lemma UpdateStorageGroup_job (symID storageGroupID : string)
    (payload : UpdateStorageGroupPayload) (allowed : bool) (job : Job)
    (s1 : S) (w : World S) :
  IsAllowedArray symID = (allowed, None) ->
  api_PutStorageGroup api symID storageGroupID payload (server w)
  = (inr job, s1) ->
  UpdateStorageGroup api IsAllowedArray symID storageGroupID payload w
  = (Ok job,
     mkWorld s1 (calls w ++ [PutStorageGroup symID storageGroupID payload])).
Proof.
  intros Hallowed Hput. unfold UpdateStorageGroup, bind.
  rewrite (checkAllowedArray_allowed _ _ _ Hallowed).
  unfold request. by rewrite Hput.
Qed.

Lemma waitAndCheck_failed (symID : string) (job failed : Job)
    (w1 w2 : World S) :
  WaitOnJobCompletion symID (JobID job) w1 = (Ok (Some failed), w2) ->
  Status failed = JobStatusFailed ->
  waitAndCheck WaitOnJobCompletion JobToString Errorf0 symID job w1
  = (Err (Errorf0 ("The UpdateStorageGroup job failed: "
                   +:+ JobToString failed)), w2).
Proof.
  intros Hwait Hstatus. unfold waitAndCheck, bind. rewrite Hwait.
  by destruct (decide (Status failed = JobStatusFailed)).
Qed.

End OperationFacts.

(** C5. Failed-job surfacing: on an allowed array, when the storage-group
    PUT has returned a job and the poller has returned, without an error,
    a job whose status is FAILED, [AddVolumesToStorageGroup] (given at
    least one volume id) and [CreateVolumeInStorageGroup] (given a name of
    at most 64 bytes) return an error, built from the text ["The
    UpdateStorageGroup job failed: "] followed by [JobToString] of the
    failed job; neither returns a success. *)
Theorem failed_job_is_surfaced {S : Type} (api : Api S)
    (IsAllowedArray : string -> bool * option string)
    (WaitOnJobCompletion : string -> string -> M S (option Job))
    (JobToString : Job -> string) (Errorf0 : string -> string)
    (payloadHasSetMetaData : bool) (fuel : nat)
    (symID storageGroupID volumeName : string) (sizeInCylinders : Z)
    (force allowed : bool) (volumeIDs : list string)
    (job failed : Job) (s1 : S) (w w2 : World S) :
  IsAllowedArray symID = (allowed, None) ->
  Status failed = JobStatusFailed ->
  (let payload := GetAddVolumeToSGPayload false force "" "" volumeIDs in
   volumeIDs <> [] ->
   api_PutStorageGroup api symID storageGroupID payload (server w)
   = (inr job, s1) ->
   WaitOnJobCompletion symID (JobID job)
     (mkWorld s1 (calls w ++ [PutStorageGroup symID storageGroupID payload]))
   = (Ok (Some failed), w2) ->
   AddVolumesToStorageGroup api IsAllowedArray WaitOnJobCompletion
     JobToString Errorf0 symID storageGroupID force volumeIDs w
   = (Err (Errorf0 ("The UpdateStorageGroup job failed: "
                    +:+ JobToString failed)), w2))
  /\ (let payload :=
        GetCreateVolInSGPayload payloadHasSetMetaData sizeInCylinders
          volumeName false "" "" [] in
      len_string volumeName <= MaxVolIdentifierLength ->
      api_PutStorageGroup api symID storageGroupID payload (server w)
      = (inr job, s1) ->
      WaitOnJobCompletion symID (JobID job)
        (mkWorld s1 (calls w ++ [PutStorageGroup symID storageGroupID payload]))
      = (Ok (Some failed), w2) ->
      CreateVolumeInStorageGroup api IsAllowedArray WaitOnJobCompletion
        JobToString Errorf0 payloadHasSetMetaData fuel symID storageGroupID
        volumeName sizeInCylinders w
      = (Err (Errorf0 ("The UpdateStorageGroup job failed: "
                       +:+ JobToString failed)), w2)).
Proof.
  intros Hallowed Hstatus. split.
  - intros payload Hne Hput Hwait. unfold AddVolumesToStorageGroup, bind.
    rewrite (checkAllowedArray_allowed _ _ _ _ Hallowed).
    destruct (len volumeIDs =? 0) eqn:Hlen.
    { apply Z.eqb_eq in Hlen. unfold len in Hlen.
      destruct volumeIDs; [done|simpl in Hlen; lia]. }
    unfold try. fold payload.
    rewrite (UpdateStorageGroup_job _ _ _ _ _ _ _ _ _ Hallowed Hput).
    by apply waitAndCheck_failed.
  - intros payload Hname Hput Hwait. unfold CreateVolumeInStorageGroup, bind.
    rewrite (checkAllowedArray_allowed _ _ _ _ Hallowed).
    destruct (len_string volumeName >? MaxVolIdentifierLength) eqn:Hgt.
    { rewrite Z.gtb_ltb in Hgt. apply Z.ltb_lt in Hgt. lia. }
    unfold try. fold payload.
    rewrite (UpdateStorageGroup_job _ _ _ _ _ _ _ _ _ Hallowed Hput).
    by rewrite (waitAndCheck_failed _ _ _ _ _ _ _ _ Hwait Hstatus).
Qed.

(** C10. Volume-name length guard: for a volume name of more than
    [MaxVolIdentifierLength] = 64 bytes, [CreateVolumeInStorageGroup] and
    [CreateVolumeInStorageGroupS] return an error (the length error, on an
    allowed array) and leave the world as it was: no request has been
    issued and the state of the server, its storage groups with it, is
    unchanged. *)
Theorem long_volume_name_is_rejected {S : Type} (api : Api S)
    (IsAllowedArray : string -> bool * option string)
    (WaitOnJobCompletion : string -> string -> M S (option Job))
    (JobToString : Job -> string) (Errorf0 : string -> string)
    (payloadHasSetMetaData : bool) (fuel : nat)
    (symID storageGroupID volumeName : string) (sizeInCylinders : Z)
    (opts : list Header) (w : World S) :
  MaxVolIdentifierLength < len_string volumeName ->
  (exists e : string,
     CreateVolumeInStorageGroup api IsAllowedArray WaitOnJobCompletion
       JobToString Errorf0 payloadHasSetMetaData fuel symID storageGroupID
       volumeName sizeInCylinders w = (Err e, w)
     /\ (snd (IsAllowedArray symID) = None ->
         e = "Length of volumeName exceeds max limit"))
  /\ (exists e : string,
        CreateVolumeInStorageGroupS api IsAllowedArray Errorf0
          payloadHasSetMetaData fuel symID storageGroupID volumeName
          sizeInCylinders opts w = (Err e, w)
        /\ (snd (IsAllowedArray symID) = None ->
            e = "Length of volumeName exceeds max limit")).
Proof.
  intros Hlong.
  assert ((len_string volumeName >? MaxVolIdentifierLength) = true) as Hgt.
  { rewrite Z.gtb_ltb. by apply Z.ltb_lt. }
  split.
  - unfold CreateVolumeInStorageGroup, bind, checkAllowedArray.
    destruct (IsAllowedArray symID) as [b [e|]]; simpl.
    + exists e. split; [done|]. done.
    + rewrite Hgt. by eexists.
  - unfold CreateVolumeInStorageGroupS, bind, checkAllowedArray.
    destruct (IsAllowedArray symID) as [b [e|]]; simpl.
    + exists e. split; [done|]. done.
    + rewrite Hgt. by eexists.
Qed.

(** ** The mock's jobs *)

Lemma returnJobByID_found (now jobID : string) (job : mock.JobInfo)
    (st : mock.State) :
  mock.JobIDToMockJob (mock.data st) !! jobID = Some job ->
  mock.returnJobByID now jobID st
  = (let j := mock.Job job in
     let j' :=
       if decide (Status j = mock.InitialState job)
       then mkJob (JobID j) (mock.FinalState job) now (ResourceLink j)
                  "Mock job completed"
       else mkJob (JobID j) (mock.InitialState job) (CompletedDate j)
                  (ResourceLink j) "Mock job in-progress" in
     (mock.Body j',
      mock.mkState
        (mock.mkData (mock.VolumeIDIteratorList (mock.data st))
           (<[jobID := mock.mkJobInfo j' (mock.InitialState job)
                         (mock.FinalState job)]>
              (mock.JobIDToMockJob (mock.data st))))
        (mock.induced st))).
Proof. unfold mock.returnJobByID. by intros ->. Qed.



(** C2 fails on the mock: a job with initial state RUNNING and final state
    SUCCEEDED answers three GETs in a row with RUNNING, SUCCEEDED and
    RUNNING again; the GET after a terminal status returns a status that
    is not terminal. *)
Theorem mock_job_leaves_terminal_status :
  let st0 :=
    snd (mock.NewMockJob "job1" JobStatusRunning JobStatusSucceeded
           "sloprovisioning/system/000197900046/storagegroup/sg1"
           mock.Reset) in
  let get1 := mock.handleJob "t1" "job1" st0 in
  let get2 := mock.handleJob "t2" "job1" (snd get1) in
  let get3 := mock.handleJob "t3" "job1" (snd get2) in
  (exists j, fst get1 = mock.Body j /\ Status j = JobStatusRunning)
  /\ (exists j, fst get2 = mock.Body j /\ Status j = JobStatusSucceeded
                /\ isTerminal (Status j) = true)
  /\ (exists j, fst get3 = mock.Body j /\ Status j = JobStatusRunning
                /\ isTerminal (Status j) = false).
Proof.
  intros st0 get1 get2 get3.
  split; [|split]; eexists; (split; [vm_compute; reflexivity|done]).
Qed.

(** ** The drain in front of the mock *)

(** C1 fails on the mock: the drain returns the backing list for 0, 1 and
    [maxPageSize] = 10 volumes, where the embedded first page holds them
    all; for [maxPageSize + 1] = 11 and [3 * maxPageSize + 2] = 32 volumes
    it returns a list of the right length in which the last position of
    every fetched page holds the empty string in place of the volume id,
    so that ids are missing and, for 32, the empty string is repeated. *)
Theorem mock_drain_blanks_page_ends :
  fst (mockGetVolumeIDList 100 (volumeIDs 0)) = Ok (volumeIDs 0)
  /\ fst (mockGetVolumeIDList 100 (volumeIDs 1)) = Ok (volumeIDs 1)
  /\ fst (mockGetVolumeIDList 100 (volumeIDs 10)) = Ok (volumeIDs 10)
  /\ fst (mockGetVolumeIDList 100 (volumeIDs 11))
     = Ok (<[10%nat := ""]> (volumeIDs 11))
  /\ fst (mockGetVolumeIDList 100 (volumeIDs 32))
     = Ok (<[19%nat := ""]> (<[29%nat := ""]> (<[31%nat := ""]> (volumeIDs 32))))
  /\ fst (mockGetVolumeIDList 100 (volumeIDs 11)) <> Ok (volumeIDs 11)
  /\ fst (mockGetVolumeIDList 100 (volumeIDs 32)) <> Ok (volumeIDs 32)
  /\ ~ NoDup (<[19%nat := ""]> (<[29%nat := ""]> (<[31%nat := ""]> (volumeIDs 32)))).
Proof.
  repeat split; try (vm_compute; reflexivity); try (vm_compute; discriminate).
  intros Hnd. vm_compute in Hnd.
  repeat match type of Hnd with
         | NoDup (?x :: ?l) =>
             let Hin := fresh in
             apply NoDup_cons in Hnd as [Hin Hnd];
             try (exfalso; apply Hin; repeat constructor; fail);
             clear Hin
         end.
Qed.

(** C3 fails: on a mock of 11 volumes whose iterator declares 12, the
    pages hold 11 elements in all, one less than the declared count (the
    page asked for elements 11 to 12 holds one), and the drain returns
    without an error a list of 12 entries, the last one the empty
    string. *)
Theorem short_page_is_padded_not_reported :
  fst (mockDrainOvercounted 100 (volumeIDs 11) 1) = Ok (volumeIDs 11 ++ [""])
  /\ is_Err (fst (mockDrainOvercounted 100 (volumeIDs 11) 1)) = false
  /\ calls (snd (mockDrainOvercounted 100 (volumeIDs 11) 1))
     = [GetVolumes "000197900046" ""; GetIteratorPage "Volume" 11 12;
        DeleteIterator "Volume"]
  /\ (exists page,
        mock.handleIterator_get 11 12
          (server (snd (mockDrainOvercounted 100 (volumeIDs 11) 1)))
        = Some (mock.Body page)
        /\ length (VolumeList page) = 1%nat).
Proof.
  split; [vm_compute; reflexivity|].
  split; [vm_compute; reflexivity|].
  split; [vm_compute; reflexivity|].
  eexists. split; [vm_compute; reflexivity|done].
Qed.

(** ** Instances *)

(** The page from 11 of an iterator of 25 elements with pages of 10 is
    requested up to 20 and spans 10 elements. *)
Lemma page_range_defaulted_and_clamped_witness :
  pageTo (mockIterator 25) 11 0 <= 25
  /\ defaultTo (mockIterator 25) 11 0 = 20
  /\ pageTo (mockIterator 25) 11 0 - 11 + 1 <= 10.
Proof.
  destruct (page_range_defaulted_and_clamped (mockWith (volumeIDs 25))
              (mockIterator 25) 11 0 (mockWorld (volumeIDs 25)))
    as (_ & Hdefault & _ & Hle & Hspan).
  split; [exact Hle|].
  split; [rewrite (Hdefault eq_refl); reflexivity|].
  apply Hspan; unfold GoInt.small; simpl; lia.
Defined.

(** The page from 11 of the mock over 11 volumes has length one and holds
    the empty string. *)
Lemma page_length_is_requested_range_witness :
  exists (result : VolumeResultList) (s' : mock.State),
    api_GetIteratorPage (mockWith (volumeIDs 11)) "Volume" 11
      (pageTo (mockIterator 11) 11 0) (server (mockWorld (volumeIDs 11)))
    = (inr result, s')
    /\ len [""] = GoInt.add (GoInt.sub (pageTo (mockIterator 11) 11 0) 11) 1.
Proof.
  destruct (page_length_is_requested_range (mockWith (volumeIDs 11))
              (mockIterator 11) 11 0 (mockWorld (volumeIDs 11))
              (snd (GetVolumeIDsIteratorPage (mockWith (volumeIDs 11))
                      (mockIterator 11) 11 0 (mockWorld (volumeIDs 11))))
              [""] ltac:(vm_compute; reflexivity))
    as (result & s' & Hpage & Hlen & _).
  exists result, s'. split; [exact Hpage|exact Hlen].
Defined.

(** The drain of the mock over 25 volumes returns, after page GETs and one
    DELETE. *)
Lemma iterator_released_iff_multipage_witness :
  is_OutOfFuel
    (fst (volumeIteratorToVolIDList (mockWith (volumeIDs 25)) 100
            (mockIterator 25) (mockWorld (volumeIDs 25)))) = false
  /\ exists pages : list Call,
       Forall (fun c => isPageGet c = true) pages
       /\ calls (snd (volumeIteratorToVolIDList (mockWith (volumeIDs 25)) 100
                        (mockIterator 25) (mockWorld (volumeIDs 25))))
          = [] ++ pages ++ [DeleteIterator "Volume"].
Proof.
  apply (iterator_released_iff_multipage (mockWith (volumeIDs 25))
           (mockIterator 25) 100 (mockWorld (volumeIDs 25)));
    try (unfold GoInt.small; simpl; lia).
Defined.

(** A failed job behind both asynchronous operations. *)
Lemma failed_job_is_surfaced_witness :
  AddVolumesToStorageGroup (jobApi failedJob) allArraysAllowed
    (fun _ _ w => (Ok (Some failedJob), w)) Result (fun s => s)
    "000197900046" "sg1" false ["v1"] (mkWorld tt [])
  = (Err "The UpdateStorageGroup job failed: Mock job completed",
     mkWorld tt
       [PutStorageGroup "000197900046" "sg1"
          (AddSpecificVolPayload ExecutionOptionAsynchronous false "" []
             ["v1"])])
  /\ CreateVolumeInStorageGroup (jobApi failedJob) allArraysAllowed
       (fun _ _ w => (Ok (Some failedJob), w)) Result (fun s => s) false 100
       "000197900046" "sg1" "vol1" 10 (mkWorld tt [])
     = (Err "The UpdateStorageGroup job failed: Mock job completed",
        mkWorld tt
          [PutStorageGroup "000197900046" "sg1"
             (CreateVolPayload ExecutionOptionAsynchronous "10" "vol1" "" []
                None)]).
Proof.
  split.
  - apply (proj1 (failed_job_is_surfaced (jobApi failedJob) allArraysAllowed
             (fun _ _ w => (Ok (Some failedJob), w)) Result (fun s => s)
             false 100 "000197900046" "sg1" "vol1" 10 false true ["v1"]
             failedJob failedJob tt (mkWorld tt []) _ eq_refl eq_refl));
      [discriminate|reflexivity|reflexivity].
  - apply (proj2 (failed_job_is_surfaced (jobApi failedJob) allArraysAllowed
             (fun _ _ w => (Ok (Some failedJob), w)) Result (fun s => s)
             false 100 "000197900046" "sg1" "vol1" 10 false true ["v1"]
             failedJob failedJob tt (mkWorld tt []) _ eq_refl eq_refl));
      [vm_compute; discriminate|reflexivity|reflexivity].
Defined.

(** A name of 65 bytes is refused before any request. *)
Lemma long_volume_name_is_rejected_witness :
  (exists e : string,
     CreateVolumeInStorageGroup (jobApi failedJob) allArraysAllowed
       (fun _ _ w => (Ok (Some failedJob), w)) Result (fun s => s) false 100
       "000197900046" "sg1" longVolumeName 10 (mkWorld tt [])
     = (Err e, mkWorld tt [])
     /\ e = "Length of volumeName exceeds max limit")
  /\ (exists e : string,
        CreateVolumeInStorageGroupS (jobApi failedJob) allArraysAllowed
          (fun s => s) false 100 "000197900046" "sg1" longVolumeName 10 []
          (mkWorld tt [])
        = (Err e, mkWorld tt [])
        /\ e = "Length of volumeName exceeds max limit").
Proof.
  destruct (long_volume_name_is_rejected (jobApi failedJob) allArraysAllowed
              (fun _ _ w => (Ok (Some failedJob), w)) Result (fun s => s)
              false 100 "000197900046" "sg1" longVolumeName 10 []
              (mkWorld tt []) ltac:(vm_compute; reflexivity))
    as [(e1 & H1 & He1) (e2 & H2 & He2)].
  split.
  - exists e1. split; [exact H1|exact (He1 eq_refl)].
  - exists e2. split; [exact H2|exact (He2 eq_refl)].
Defined.

(** * Further properties of the code *)

(** ** The guards of the operations *)

Section GuardFacts.

Context {S : Type}.
Variable api : Api S.
Variable IsAllowedArray : string -> bool * option string.
Variable WaitOnJobCompletion : string -> string -> M S (option Job).
Variable JobToString : Job -> string.
Variable Errorf0 : string -> string.
Variable payloadHasSetMetaData : bool.

Lemma checkAllowedArray_refused (symID e : string) (b : bool) (w : World S) :
  IsAllowedArray symID = (b, Some e) ->
  checkAllowedArray IsAllowedArray symID w = (Err e, w).
Proof. unfold checkAllowedArray. by intros ->. Qed.

Lemma UpdateStorageGroup_error (symID storageGroupID e : string)
    (payload : UpdateStorageGroupPayload) (allowed : bool) (s1 : S)
    (w : World S) :
  IsAllowedArray symID = (allowed, None) ->
  api_PutStorageGroup api symID storageGroupID payload (server w)
  = (inl e, s1) ->
  UpdateStorageGroup api IsAllowedArray symID storageGroupID payload w
  = (Err e,
     mkWorld s1 (calls w ++ [PutStorageGroup symID storageGroupID payload])).
Proof.
  intros Hallowed Hput. unfold UpdateStorageGroup, bind.
  rewrite (checkAllowedArray_allowed _ _ _ _ Hallowed).
  unfold request. by rewrite Hput.
Qed.

Lemma UpdateStorageGroupS_error (symID storageGroupID e : string)
    (payload : UpdateStorageGroupPayload) (allowed : bool) (s1 : S)
    (w : World S) :
  IsAllowedArray symID = (allowed, None) ->
  api_PutStorageGroupS api symID storageGroupID payload (server w)
  = (Some e, s1) ->
  UpdateStorageGroupS api IsAllowedArray symID storageGroupID payload w
  = (Err e,
     mkWorld s1 (calls w ++ [PutStorageGroup symID storageGroupID payload])).
Proof.
  intros Hallowed Hput. unfold UpdateStorageGroupS, bind.
  rewrite (checkAllowedArray_allowed _ _ _ _ Hallowed).
  unfold request_. by rewrite Hput.
Qed.

Lemma len_nonempty {A : Type} (l : list A) : l <> [] -> (len l =? 0) = false.
Proof.
  intros Hne. apply Z.eqb_neq. unfold len.
  destruct l; [done|simpl; lia].
Qed.

Lemma name_fits (volumeName : string) :
  len_string volumeName <= MaxVolIdentifierLength ->
  (len_string volumeName >? MaxVolIdentifierLength) = false.
Proof. intros H. rewrite Z.gtb_ltb. apply Z.ltb_ge. lia. Qed.

End GuardFacts.

(** X1. An array that [IsAllowedArray] refuses with an error stops every
    operation before any request: each returns that very error and leaves
    the world as it was. *)
Theorem refused_array_stops_every_operation {S : Type} (api : Api S)
    (IsAllowedArray : string -> bool * option string)
    (WaitOnJobCompletion : string -> string -> M S (option Job))
    (JobToString : Job -> string) (Errorf0 : string -> string)
    (payloadHasSetMetaData : bool) (fuel : nat)
    (symID storageGroupID name remoteSymID remoteStorageGroupID e : string)
    (size : Z) (like force b : bool) (volumeIDs : list string)
    (opts : list Header) (payload : UpdateStorageGroupPayload)
    (w : World S) :
  IsAllowedArray symID = (b, Some e) ->
  GetVolumeIDsIterator api IsAllowedArray symID name like w = (Err e, w)
  /\ GetVolumeIDList api IsAllowedArray fuel symID name like w = (Err e, w)
  /\ GetVolumeByID api IsAllowedArray symID name w = (Err e, w)
  /\ UpdateStorageGroup api IsAllowedArray symID storageGroupID payload w
     = (Err e, w)
  /\ UpdateStorageGroupS api IsAllowedArray symID storageGroupID payload w
     = (Err e, w)
  /\ CreateVolumeInStorageGroup api IsAllowedArray WaitOnJobCompletion
       JobToString Errorf0 payloadHasSetMetaData fuel symID storageGroupID
       name size w = (Err e, w)
  /\ CreateVolumeInStorageGroupS api IsAllowedArray Errorf0
       payloadHasSetMetaData fuel symID storageGroupID name size opts w
     = (Err e, w)
  /\ CreateVolumeInProtectedStorageGroupS api IsAllowedArray Errorf0
       payloadHasSetMetaData fuel symID remoteSymID storageGroupID
       remoteStorageGroupID name size opts w = (Err e, w)
  /\ AddVolumesToStorageGroup api IsAllowedArray WaitOnJobCompletion
       JobToString Errorf0 symID storageGroupID force volumeIDs w
     = (Err e, w)
  /\ AddVolumesToStorageGroupS api IsAllowedArray symID storageGroupID force
       volumeIDs w = (Err e, w)
  /\ AddVolumesToProtectedStorageGroup api IsAllowedArray symID
       storageGroupID remoteSymID remoteStorageGroupID force volumeIDs w
     = (Err e, w).
Proof.
  intros H.
  repeat split;
    unfold GetVolumeIDsIterator, GetVolumeIDList, GetVolumeByID,
      UpdateStorageGroup, UpdateStorageGroupS, CreateVolumeInStorageGroup,
      CreateVolumeInStorageGroupS, CreateVolumeInProtectedStorageGroupS,
      AddVolumesToStorageGroup, AddVolumesToStorageGroupS,
      AddVolumesToProtectedStorageGroup, bind;
    by rewrite (checkAllowedArray_refused _ _ _ _ _ H).
Qed.

(** X2. A listing by storage group without a storage-group id is refused
    with "storageGroupID is empty" before any request, by the iterator
    call and by the id list built on it; with an id, the request carries
    the query [?storageGroupId=] followed by the id. *)
Theorem listing_needs_a_storage_group {S : Type} (api : Api S) (fuel : nat)
    (symID storageGroupID : string) (w : World S) :
  (storageGroupID = "" ->
   GetVolumesInStorageGroupIterator api symID storageGroupID w
   = (Err "storageGroupID is empty", w)
   /\ GetVolumeIDListInStorageGroup api fuel symID storageGroupID w
      = (Err "storageGroupID is empty", w))
  /\ (storageGroupID <> "" ->
      calls (snd (GetVolumesInStorageGroupIterator api symID storageGroupID w))
      = calls w ++ [GetVolumes symID ("?storageGroupId=" +:+ storageGroupID)]).
Proof.
  split.
  - intros ->. done.
  - intros Hne. unfold GetVolumesInStorageGroupIterator.
    destruct (decide (storageGroupID = "")); [done|].
    unfold getVolumeIDsIteratorBase, request.
    destruct (api_GetVolumes api symID _ (server w)) as [[e|it] s']; done.
Qed.

(** X3. Without a volume id, the three additions to a storage group are
    refused on an allowed array before any request: the asynchronous one
    with "At least one volume id has to be specified", the synchronous
    and the protected one with the same text in lower case. *)
Theorem addition_needs_a_volume_id {S : Type} (api : Api S)
    (IsAllowedArray : string -> bool * option string)
    (WaitOnJobCompletion : string -> string -> M S (option Job))
    (JobToString : Job -> string) (Errorf0 : string -> string)
    (symID storageGroupID remoteSymID remoteStorageGroupID : string)
    (force allowed : bool) (w : World S) :
  IsAllowedArray symID = (allowed, None) ->
  AddVolumesToStorageGroup api IsAllowedArray WaitOnJobCompletion
    JobToString Errorf0 symID storageGroupID force [] w
  = (Err "At least one volume id has to be specified", w)
  /\ AddVolumesToStorageGroupS api IsAllowedArray symID storageGroupID force
       [] w
     = (Err "at least one volume id has to be specified", w)
  /\ AddVolumesToProtectedStorageGroup api IsAllowedArray symID
       storageGroupID remoteSymID remoteStorageGroupID force [] w
     = (Err "at least one volume id has to be specified", w).
Proof.
  intros H.
  repeat split;
    unfold AddVolumesToStorageGroup, AddVolumesToStorageGroupS,
      AddVolumesToProtectedStorageGroup, bind;
    by rewrite (checkAllowedArray_allowed _ _ _ _ H).
Qed.

(** X4. When the asynchronous storage-group PUT fails, with whatever
    error, [AddVolumesToStorageGroup] and [CreateVolumeInStorageGroup]
    return the fixed error "A job was not returned from
    UpdateStorageGroup": the error of the transport is not passed on, the
    poller is not called, and the PUT is the only request. *)
Theorem failed_put_is_reported_as_missing_job {S : Type} (api : Api S)
    (IsAllowedArray : string -> bool * option string)
    (WaitOnJobCompletion : string -> string -> M S (option Job))
    (JobToString : Job -> string) (Errorf0 : string -> string)
    (payloadHasSetMetaData : bool) (fuel : nat)
    (symID storageGroupID volumeName e : string) (sizeInCylinders : Z)
    (force allowed : bool) (volumeIDs : list string) (s1 : S)
    (w : World S) :
  IsAllowedArray symID = (allowed, None) ->
  (let payload := GetAddVolumeToSGPayload false force "" "" volumeIDs in
   volumeIDs <> [] ->
   api_PutStorageGroup api symID storageGroupID payload (server w)
   = (inl e, s1) ->
   AddVolumesToStorageGroup api IsAllowedArray WaitOnJobCompletion
     JobToString Errorf0 symID storageGroupID force volumeIDs w
   = (Err "A job was not returned from UpdateStorageGroup",
      mkWorld s1 (calls w ++ [PutStorageGroup symID storageGroupID payload])))
  /\ (let payload :=
        GetCreateVolInSGPayload payloadHasSetMetaData sizeInCylinders
          volumeName false "" "" [] in
      len_string volumeName <= MaxVolIdentifierLength ->
      api_PutStorageGroup api symID storageGroupID payload (server w)
      = (inl e, s1) ->
      CreateVolumeInStorageGroup api IsAllowedArray WaitOnJobCompletion
        JobToString Errorf0 payloadHasSetMetaData fuel symID storageGroupID
        volumeName sizeInCylinders w
      = (Err "A job was not returned from UpdateStorageGroup",
         mkWorld s1
           (calls w ++ [PutStorageGroup symID storageGroupID payload]))).
Proof.
  intros Hallowed. split.
  - intros payload Hne Hput. unfold AddVolumesToStorageGroup, bind.
    rewrite (checkAllowedArray_allowed _ _ _ _ Hallowed).
    rewrite (len_nonempty _ Hne). unfold try. fold payload.
    by rewrite (UpdateStorageGroup_error _ _ _ _ _ _ _ _ _ Hallowed Hput).
  - intros payload Hname Hput. unfold CreateVolumeInStorageGroup, bind.
    rewrite (checkAllowedArray_allowed _ _ _ _ Hallowed).
    rewrite (name_fits _ Hname). unfold try. fold payload.
    by rewrite (UpdateStorageGroup_error _ _ _ _ _ _ _ _ _ Hallowed Hput).
Qed.

(** X5. The outcome of the poller decides [AddVolumesToStorageGroup]
    once the PUT has returned a job: an error of the poller is returned
    as it is, and a job whose status is anything but FAILED, a status
    that is not terminal included, makes the operation succeed. *)
Theorem addition_follows_the_poller {S : Type} (api : Api S)
    (IsAllowedArray : string -> bool * option string)
    (WaitOnJobCompletion : string -> string -> M S (option Job))
    (JobToString : Job -> string) (Errorf0 : string -> string)
    (symID storageGroupID e : string) (force allowed : bool)
    (volumeIDs : list string) (job polled : Job) (s1 : S)
    (w w2 : World S) :
  let payload := GetAddVolumeToSGPayload false force "" "" volumeIDs in
  let w1 :=
    mkWorld s1 (calls w ++ [PutStorageGroup symID storageGroupID payload]) in
  IsAllowedArray symID = (allowed, None) ->
  volumeIDs <> [] ->
  api_PutStorageGroup api symID storageGroupID payload (server w)
  = (inr job, s1) ->
  (WaitOnJobCompletion symID (JobID job) w1 = (Err e, w2) ->
   AddVolumesToStorageGroup api IsAllowedArray WaitOnJobCompletion
     JobToString Errorf0 symID storageGroupID force volumeIDs w
   = (Err e, w2))
  /\ (WaitOnJobCompletion symID (JobID job) w1 = (Ok (Some polled), w2) ->
      Status polled <> JobStatusFailed ->
      AddVolumesToStorageGroup api IsAllowedArray WaitOnJobCompletion
        JobToString Errorf0 symID storageGroupID force volumeIDs w
      = (Ok tt, w2)).
Proof.
  intros payload w1 Hallowed Hne Hput.
  assert (forall r,
            WaitOnJobCompletion symID (JobID job) w1 = r ->
            AddVolumesToStorageGroup api IsAllowedArray WaitOnJobCompletion
              JobToString Errorf0 symID storageGroupID force volumeIDs w
            = waitAndCheck WaitOnJobCompletion JobToString Errorf0 symID job
                           w1) as Hstep.
  { intros r _. unfold AddVolumesToStorageGroup, bind.
    rewrite (checkAllowedArray_allowed _ _ _ _ Hallowed).
    rewrite (len_nonempty _ Hne). unfold try. fold payload.
    by rewrite (UpdateStorageGroup_job _ _ _ _ _ _ _ _ _ Hallowed Hput). }
  split.
  - intros Hwait. rewrite (Hstep _ Hwait).
    unfold waitAndCheck, bind. by rewrite Hwait.
  - intros Hwait Hstatus. rewrite (Hstep _ Hwait).
    unfold waitAndCheck, bind. rewrite Hwait.
    by destruct (decide (Status polled = JobStatusFailed)).
Qed.

(** X6. When the synchronous storage-group PUT fails with an error [e],
    [CreateVolumeInStorageGroupS] returns "couldn't create volume. error -
    " followed by [e], and [AddVolumesToStorageGroupS] returns "An
    error([e]) was returned from UpdateStorageGroup"; the PUT is the only
    request, so that no volume is looked up afterwards. *)
Theorem failed_synchronous_put_is_wrapped {S : Type} (api : Api S)
    (IsAllowedArray : string -> bool * option string)
    (Errorf0 : string -> string) (payloadHasSetMetaData : bool) (fuel : nat)
    (symID storageGroupID volumeName e : string) (sizeInCylinders : Z)
    (force allowed : bool) (volumeIDs : list string) (opts : list Header)
    (s1 : S) (w : World S) :
  IsAllowedArray symID = (allowed, None) ->
  (let payload :=
     GetCreateVolInSGPayload payloadHasSetMetaData sizeInCylinders
       volumeName true "" "" opts in
   len_string volumeName <= MaxVolIdentifierLength ->
   api_PutStorageGroupS api symID storageGroupID payload (server w)
   = (Some e, s1) ->
   CreateVolumeInStorageGroupS api IsAllowedArray Errorf0
     payloadHasSetMetaData fuel symID storageGroupID volumeName
     sizeInCylinders opts w
   = (Err ("couldn't create volume. error - " +:+ e),
      mkWorld s1 (calls w ++ [PutStorageGroup symID storageGroupID payload])))
  /\ (let payload := GetAddVolumeToSGPayload true force "" "" volumeIDs in
      volumeIDs <> [] ->
      api_PutStorageGroupS api symID storageGroupID payload (server w)
      = (Some e, s1) ->
      AddVolumesToStorageGroupS api IsAllowedArray symID storageGroupID
        force volumeIDs w
      = (Err ("An error(" +:+ e
              +:+ ") was returned from UpdateStorageGroup"),
         mkWorld s1
           (calls w ++ [PutStorageGroup symID storageGroupID payload]))).
Proof.
  intros Hallowed. split.
  - intros payload Hname Hput. unfold CreateVolumeInStorageGroupS, bind.
    rewrite (checkAllowedArray_allowed _ _ _ _ Hallowed).
    rewrite (name_fits _ Hname). unfold try. fold payload.
    by rewrite (UpdateStorageGroupS_error _ _ _ _ _ _ _ _ _ Hallowed Hput).
  - intros payload Hne Hput. unfold AddVolumesToStorageGroupS, bind.
    rewrite (checkAllowedArray_allowed _ _ _ _ Hallowed).
    rewrite (len_nonempty _ Hne). unfold try. fold payload.
    by rewrite (UpdateStorageGroupS_error _ _ _ _ _ _ _ _ _ Hallowed Hput).
Qed.

(** ** The search for a volume *)

Lemma firstMatchingVolume_sound {S : Type} (api : Api S)
    (IsAllowedArray : string -> bool * option string)
    (symID storageGroupID : string) (sizeInCylinders : Z)
    (volIDList : list string) :
  forall (w w' : World S) (vol : Volume),
    firstMatchingVolume api IsAllowedArray symID storageGroupID
      sizeInCylinders volIDList w = (Ok (Some vol), w') ->
    storageGroupID ∈ types.StorageGroupIDList vol
    /\ types.CapacityCYL vol = sizeInCylinders.
Proof.
  induction volIDList as [|volumeID rest IH]; intros w w' vol; simpl.
  - unfold ret. intros H. by injection H.
  - unfold bind, try.
    destruct (GetVolumeByID api IsAllowedArray symID volumeID w)
      as [[v|e|m|] w1]; try done.
    + destruct (existsb _ (types.StorageGroupIDList v)) eqn:Hex.
      * unfold ret. intros H. injection H as <- _.
        apply existsb_exists in Hex as (sg & Hin & Hsg).
        apply andb_prop in Hsg as [Heq Hsize].
        apply bool_decide_eq_true in Heq. subst sg.
        split; [by apply list_elem_of_In|by apply Z.eqb_eq].
      * apply IH.
    + apply IH.
Qed.

(** X7. A volume that [GetVolumeByIdentifier] returns is a member of the
    storage group that was asked for and has the size that was asked for,
    in cylinders. *)
Theorem found_volume_matches_group_and_size {S : Type} (api : Api S)
    (IsAllowedArray : string -> bool * option string)
    (Errorf0 : string -> string) (fuel : nat)
    (symID storageGroupID volumeName : string) (sizeInCylinders : Z)
    (w w' : World S) (vol : Volume) :
  GetVolumeByIdentifier api IsAllowedArray Errorf0 fuel symID storageGroupID
    volumeName sizeInCylinders w = (Ok vol, w') ->
  storageGroupID ∈ types.StorageGroupIDList vol
  /\ types.CapacityCYL vol = sizeInCylinders.
Proof.
  unfold GetVolumeByIdentifier, bind, try.
  destruct (GetVolumeIDList api IsAllowedArray fuel symID volumeName false w)
    as [[l|e|m|] w1]; try done.
  destruct (firstMatchingVolume api IsAllowedArray symID storageGroupID
              sizeInCylinders l w1) as [[[v|]|e|m|] w2] eqn:Hfind; try done.
  unfold ret. intros H. injection H as <- _.
  by apply (firstMatchingVolume_sound _ _ _ _ _ _ _ _ _ Hfind).
Qed.

(** ** More on the drain *)

Section DrainLengths.

Context {S : Type}.
Variable api : Api S.

Lemma pageTo_default (iter : VolumeIterator) (from : Z) :
  GoInt.small (MaxPageSize iter) ->
  - 2 ^ 62 <= from <= 2 ^ 62 ->
  pageTo iter from 0 = Z.min (from + MaxPageSize iter - 1) (Count iter).
Proof.
  unfold GoInt.small. intros Hm Hfrom.
  unfold pageTo, clampTo, defaultTo. simpl. exact_int.
  destruct (from + MaxPageSize iter - 1 >? Count iter) eqn:Hgt.
  - rewrite Z.gtb_ltb in Hgt. apply Z.ltb_lt in Hgt. lia.
  - rewrite Z.gtb_ltb in Hgt. apply Z.ltb_ge in Hgt. lia.
Qed.

(** The pages that the loop obtains fill the offsets from [from] to
    [Count], one entry each. *)
Lemma additionalPages_Ok_length (iter : VolumeIterator) :
  1 <= MaxPageSize iter ->
  GoInt.small (MaxPageSize iter) ->
  GoInt.small (Count iter) ->
  forall (fuel : nat) (from : Z) (acc l : list string) (w w' : World S),
    - 2 ^ 62 <= from <= Count iter + 1 ->
    additionalPages api fuel iter from acc w = (Ok l, w') ->
    len l = len acc + (Count iter + 1 - from).
Proof.
  intros Hmax Hm Hc.
  induction fuel as [|fuel IH]; intros from acc l w w' Hfrom; simpl.
  - destruct (from <=? Count iter) eqn:Hle; [done|].
    apply Z.leb_gt in Hle. unfold ret. intros H. injection H as <- _. lia.
  - destruct (from <=? Count iter) eqn:Hle.
    + apply Z.leb_le in Hle. unfold bind.
      destruct (GetVolumeIDsIteratorPage api iter from 0 w)
        as [[idlist|e|m|] w1] eqn:Hpage; try done.
      apply GetVolumeIDsIteratorPage_Ok_length in Hpage as Hlen.
      unfold GoInt.small in *.
      rewrite pageTo_default in Hlen by (unfold GoInt.small; lia).
      revert Hlen. exact_int. intros Hlen.
      rewrite Hlen. exact_int. intros Hrest.
      apply IH in Hrest; [|lia].
      rewrite Hrest. unfold len in *. rewrite length_app. lia.
    + apply Z.leb_gt in Hle. unfold ret. intros H. injection H as <- _. lia.
Qed.

End DrainLengths.

(** X8. The count check of the drain fires only for the embedded first
    page: when the first page ends at an offset [To <= Count] and the
    loop gets all its pages, the drain returns the list if the first page
    holds [To] elements, and the error "Expected [Count] ids but got [n]
    ids" otherwise, where [n] is off by the difference; what the fetched
    pages hold plays no part. *)
Theorem count_check_sees_only_first_page {S : Type} (api : Api S)
    (iter : VolumeIterator) (fuel : nat) (w w1 : World S)
    (l : list string) :
  let first := len (VolumeList (ResultList iter)) in
  1 <= MaxPageSize iter ->
  GoInt.small (MaxPageSize iter) ->
  GoInt.small (Count iter) ->
  GoInt.small (To (ResultList iter)) ->
  To (ResultList iter) <= Count iter ->
  additionalPages api fuel iter (GoInt.add (To (ResultList iter)) 1)
    (map VolumeIDs (VolumeList (ResultList iter))) w = (Ok l, w1) ->
  len l = first + (Count iter - To (ResultList iter))
  /\ fst (volumeIteratorToVolIDList api fuel iter w)
     = (if decide (first = To (ResultList iter)) then Ok l
        else Err (countMismatch (Count iter)
                    (first + (Count iter - To (ResultList iter))))).
Proof.
  intros first Hmax Hm Hc Ht Hle Hpages.
  assert (len l = first + (Count iter - To (ResultList iter))) as Hlen.
  { assert (- 2 ^ 62 <= GoInt.add (To (ResultList iter)) 1
            <= Count iter + 1) as Hfrom
      by (unfold GoInt.small in *; exact_int; lia).
    pose proof (additionalPages_Ok_length api iter Hmax Hm Hc fuel _ _ _ _ _
                  Hfrom Hpages) as H.
    revert H. unfold GoInt.small in *. exact_int.
    unfold first, len. rewrite length_map. lia. }
  split; [done|].
  rewrite drain_result_is_body.
  unfold volumeIteratorToVolIDList_body, bind. rewrite Hpages.
  destruct (decide (len l = Count iter)) as [Heq|Hne];
    destruct (decide (first = To (ResultList iter))) as [Hf|Hf];
    simpl; try lia; [done|].
  unfold countMismatch. by rewrite Hlen.
Qed.

(** X9. An iterator whose first page ends at or after [Count] is drained
    without a page GET, with any loop bound: the drain returns the ids of
    the first page when there are [Count] of them and the count error
    otherwise, and its only request is the DELETE when
    [MaxPageSize < Count]. *)
Theorem single_page_drain_fetches_nothing {S : Type} (api : Api S)
    (iter : VolumeIterator) (fuel : nat) (w : World S) :
  let ids := map VolumeIDs (VolumeList (ResultList iter)) in
  GoInt.small (To (ResultList iter)) ->
  Count iter <= To (ResultList iter) ->
  fst (volumeIteratorToVolIDList api fuel iter w)
  = (if decide (len ids = Count iter) then Ok ids
     else Err (countMismatch (Count iter) (len ids)))
  /\ calls (snd (volumeIteratorToVolIDList api fuel iter w))
     = calls w ++ (if MaxPageSize iter <? Count iter
                   then [DeleteIterator (ID iter)] else []).
Proof.
  intros ids Ht Hle.
  assert (volumeIteratorToVolIDList_body api fuel iter w
          = (if decide (len ids = Count iter) then Ok ids
             else Err (countMismatch (Count iter) (len ids)), w)) as Hbody.
  { unfold volumeIteratorToVolIDList_body, bind. fold ids.
    assert (additionalPages api fuel iter
              (GoInt.add (To (ResultList iter)) 1) ids w = (Ok ids, w))
      as ->.
    { unfold GoInt.small in Ht.
      destruct fuel; simpl; exact_int;
        (destruct (To (ResultList iter) + 1 <=? Count iter) eqn:H;
         [apply Z.leb_le in H; lia|done]). }
    by destruct (decide (len ids = Count iter)). }
  split.
  - by rewrite drain_result_is_body, Hbody.
  - unfold volumeIteratorToVolIDList, with_defer.
    destruct (MaxPageSize iter <? Count iter);
      rewrite Hbody; [|by rewrite app_nil_r].
    unfold DeleteVolumeIDsIterator, request_.
    destruct (decide (len ids = Count iter));
      destruct (api_DeleteIterator api (ID iter) (server w)) as [[e'|] s'];
      done.
Qed.

(** X10. A page GET that fails ends the drain with the error of that
    GET: when the first page after the embedded one fails with [e], the
    drain returns [e], having issued that one page GET and, when
    [MaxPageSize < Count], the DELETE after it. *)
Theorem failed_page_ends_the_drain {S : Type} (api : Api S)
    (iter : VolumeIterator) (fuel : nat) (w : World S) (e : string)
    (s1 : S) :
  let from := To (ResultList iter) + 1 in
  GoInt.small (To (ResultList iter)) ->
  To (ResultList iter) < Count iter ->
  api_GetIteratorPage api (ID iter) from (pageTo iter from 0) (server w)
  = (inl e, s1) ->
  fst (volumeIteratorToVolIDList api (Datatypes.S fuel) iter w) = Err e
  /\ calls (snd (volumeIteratorToVolIDList api (Datatypes.S fuel) iter w))
     = calls w ++ [GetIteratorPage (ID iter) from (pageTo iter from 0)]
       ++ (if MaxPageSize iter <? Count iter
           then [DeleteIterator (ID iter)] else []).
Proof.
  intros from Ht Hlt Hpage.
  assert (volumeIteratorToVolIDList_body api (Datatypes.S fuel) iter w
          = (Err e,
             mkWorld s1
               (calls w
                ++ [GetIteratorPage (ID iter) from (pageTo iter from 0)])))
    as Hbody.
  { unfold volumeIteratorToVolIDList_body, bind. simpl additionalPages.
    unfold GoInt.small in Ht. exact_int. fold from.
    destruct (from <=? Count iter) eqn:Hle;
      [|apply Z.leb_gt in Hle; unfold from in Hle; lia].
    unfold bind. rewrite GetVolumeIDsIteratorPage_eq. simpl.
    by rewrite Hpage. }
  split.
  - by rewrite drain_result_is_body, Hbody.
  - unfold volumeIteratorToVolIDList, with_defer.
    destruct (MaxPageSize iter <? Count iter);
      rewrite Hbody; [|done].
    unfold DeleteVolumeIDsIterator, request_. simpl.
    destruct (api_DeleteIterator api (ID iter) s1) as [[e'|] s']; simpl;
      by rewrite <- app_assoc.
Qed.

(** ** The mock's listing and pages *)

Lemma index_nat (l : list string) (i : nat) :
  mock.index l (Z.of_nat i) = l !! i.
Proof.
  unfold mock.index. destruct (Z.of_nat i <? 0) eqn:H.
  - apply Z.ltb_lt in H. lia.
  - by rewrite Nat2Z.id.
Qed.

Lemma appendVolumeIDs_in_range (l : list string) (n : nat) :
  forall (i : nat) (acc : list VolumeIDList),
    (i + n <= length l)%nat ->
    mock.appendVolumeIDs l (Z.of_nat i) n acc
    = Some (acc ++ map mkVolumeIDList (take n (drop i l))).
Proof.
  induction n as [|n IH]; intros i acc Hlen; simpl.
  - by rewrite app_nil_r.
  - rewrite index_nat.
    destruct (l !! i) as [v|] eqn:Hv;
      [|apply lookup_ge_None in Hv; lia].
    replace (Z.of_nat i + 1) with (Z.of_nat (Datatypes.S i)) by lia.
    rewrite IH by lia. f_equal. rewrite <- app_assoc. f_equal. simpl.
    rewrite (drop_S l v i Hv). simpl. done.
Qed.

Lemma appendVolumeIDs_out_of_range (l : list string) (n : nat) :
  forall (i : nat) (acc : list VolumeIDList),
    (0 < n)%nat ->
    (length l < i + n)%nat ->
    mock.appendVolumeIDs l (Z.of_nat i) n acc = None.
Proof.
  induction n as [|n IH]; intros i acc Hpos Hlen; simpl; [lia|].
  rewrite index_nat. destruct (l !! i) as [v|] eqn:Hv; [|done].
  replace (Z.of_nat i + 1) with (Z.of_nat (Datatypes.S i)) by lia.
  apply lookup_lt_Some in Hv. apply IH; lia.
Qed.

Lemma handleVolume_list_eq (matching : list string) (d : mock.Data)
    (jobError roleError : bool) :
  mock.handleVolume_list matching
    (mock.mkState d (mock.mkInducedErrors false jobError roleError))
  = (Some (mock.Body
             (mkVolumeIterator (len matching) "Volume" 10 0
                (mkVolumeResultList 1 (Z.min (len matching) 10)
                   (map mkVolumeIDList (take 10 matching))))),
     mock.mkState (mock.mkData matching (mock.JobIDToMockJob d))
                  (mock.mkInducedErrors false jobError roleError)).
Proof.
  unfold mock.handleVolume_list. simpl.
  assert ((if len matching >? 10 then 10 else len matching)
          = Z.min (len matching) 10) as ->.
  { destruct (len matching >? 10) eqn:H; rewrite Z.gtb_ltb in H;
      [apply Z.ltb_lt in H|apply Z.ltb_ge in H]; lia. }
  change (GoInt.sub 1 1) with 0.
  assert (0 <= Z.min (len matching) 10 <= 10) as Hto
    by (unfold len; lia).
  rewrite sub_exact
    by (unfold GoInt.in_range, GoInt.min_int, GoInt.max_int; lia).
  replace (Z.min (len matching) 10 - 1 + 1 - 0)
    with (Z.min (len matching) 10) by lia.
  rewrite (appendVolumeIDs_in_range matching _ 0 [])
    by (unfold len in *; simpl; lia).
  simpl. rewrite drop_0. do 5 f_equal.
  unfold len. destruct (decide (length matching <= 10)%nat).
  - rewrite Z.min_l, Nat2Z.id by lia.
    by rewrite !take_ge by lia.
  - rewrite Z.min_r by lia. done.
Qed.

(** X11. The listing of the mock builds an iterator from the matching
    ids: [Count] is their number, [MaxPageSize] is 10, the embedded first
    page runs from 1 to the smaller of that number and 10 and holds the
    first ten ids at most, in order; the ids become the list that the
    page handler serves, and the job table is left alone. With the induced
    iterator error the handler answers 408 and changes nothing. *)
Theorem mock_listing_builds_first_page (matching : list string)
    (d : mock.Data) (jobError roleError : bool) :
  mock.handleVolume_list matching
    (mock.mkState d (mock.mkInducedErrors false jobError roleError))
  = (Some (mock.Body
             (mkVolumeIterator (len matching) "Volume" 10 0
                (mkVolumeResultList 1 (Z.min (len matching) 10)
                   (map mkVolumeIDList (take 10 matching))))),
     mock.mkState (mock.mkData matching (mock.JobIDToMockJob d))
                  (mock.mkInducedErrors false jobError roleError))
  /\ mock.handleVolume_list matching
       (mock.mkState d (mock.mkInducedErrors true jobError roleError))
     = (Some (mock.Error "Error getting VolumeIterator: induced error" 408),
        mock.mkState d (mock.mkInducedErrors true jobError roleError)).
Proof. split; [apply handleVolume_list_eq|done]. Qed.

(** X12. The page handler of the mock serves one element less than it is
    asked for: for [1 <= from <= to] with [to - 1] elements in the list,
    the page from [from] to [to] holds the [to - from] elements at the
    offsets [from] to [to - 1], and the element at offset [to] is left
    out; when the list has fewer than [to - 1] elements the handler
    panics. *)
Theorem mock_page_is_one_element_short (from to : Z) (st : mock.State) :
  let l := mock.VolumeIDIteratorList (mock.data st) in
  1 <= from <= to ->
  GoInt.in_range to ->
  (to - 1 <= len l ->
   mock.handleIterator_get from to st
   = Some (mock.Body
             (mkVolumeResultList from to
                (map mkVolumeIDList
                   (take (Z.to_nat (to - from))
                         (drop (Z.to_nat (from - 1)) l))))))
  /\ (len l < to - 1 -> from < to ->
      mock.handleIterator_get from to st = None).
Proof.
  intros l Hft Hr. unfold GoInt.in_range, GoInt.min_int, GoInt.max_int in Hr.
  unfold mock.handleIterator_get. fold l. exact_int.
  replace (to - 1 - (from - 1)) with (to - from) by lia.
  replace (from - 1) with (Z.of_nat (Z.to_nat (from - 1))) at 1 3 by lia.
  split.
  - intros Hlen.
    rewrite appendVolumeIDs_in_range by (unfold len in Hlen; lia).
    done.
  - intros Hlen Hlt.
    rewrite appendVolumeIDs_out_of_range by (unfold len in Hlen; lia).
    done.
Qed.

Lemma body_single_page {S : Type} (api : Api S) (iter : VolumeIterator)
    (fuel : nat) (w : World S) :
  GoInt.small (To (ResultList iter)) ->
  Count iter <= To (ResultList iter) ->
  len (VolumeList (ResultList iter)) = Count iter ->
  volumeIteratorToVolIDList_body api fuel iter w
  = (Ok (map VolumeIDs (VolumeList (ResultList iter))), w).
Proof.
  intros Ht Hle Hlen. unfold volumeIteratorToVolIDList_body, bind.
  assert (additionalPages api fuel iter (GoInt.add (To (ResultList iter)) 1)
            (map VolumeIDs (VolumeList (ResultList iter))) w
          = (Ok (map VolumeIDs (VolumeList (ResultList iter))), w)) as ->.
  { unfold GoInt.small in Ht.
    destruct fuel; simpl; exact_int;
      (destruct (To (ResultList iter) + 1 <=? Count iter) eqn:H;
       [apply Z.leb_le in H; lia|done]). }
  destruct (decide (len (map VolumeIDs (VolumeList (ResultList iter)))
                    = Count iter)) as [|Hne]; [done|].
  exfalso. apply Hne. unfold len in *. by rewrite length_map.
Qed.

(** X13. Against the mock, [GetVolumeIDList] of at most ten volumes
    returns exactly the ids of the mock, in its order, with any loop
    bound; the listing is its only request: no page GET and no DELETE
    follow. *)
Theorem mock_listing_round_trip_within_one_page (ids : list string)
    (fuel : nat) :
  (length ids <= 10)%nat ->
  mockGetVolumeIDList fuel ids
  = (Ok ids,
     mkWorld
       (mock.mkState (mock.mkData ids ∅)
                     (mock.mkInducedErrors false false false))
       [GetVolumes "000197900046" ""]).
Proof.
  intros Hlen.
  unfold mockGetVolumeIDList, GetVolumeIDList, GetVolumeIDsIterator, bind,
    checkAllowedArray, getVolumeIDsIteratorBase, request, ret.
  simpl. unfold mock.Reset. rewrite handleVolume_list_eq. simpl.
  unfold volumeIteratorToVolIDList. simpl.
  assert ((10 <? len ids) = false) as ->
    by (apply Z.ltb_ge; unfold len; lia).
  rewrite body_single_page; simpl.
  - rewrite take_ge by lia. f_equal. f_equal.
    rewrite map_map. simpl. apply map_id.
  - unfold GoInt.small, len. lia.
  - unfold len. lia.
  - unfold len. rewrite length_map, length_take. lia.
Qed.

(** ** More on the mock's jobs *)

(** X14. Every GET of a job of the mock flips its status: the statuses
    of three GETs in a row are each the initial or the final state of the
    job, the third equals the first, and the second differs from the first
    whenever the two states differ. *)
Theorem mock_job_status_alternates (now1 now2 now3 jobID : string)
    (job : mock.JobInfo) (st : mock.State) :
  let get1 := mock.returnJobByID now1 jobID st in
  let get2 := mock.returnJobByID now2 jobID (snd get1) in
  let get3 := mock.returnJobByID now3 jobID (snd get2) in
  mock.JobIDToMockJob (mock.data st) !! jobID = Some job ->
  exists j1 j2 j3 : Job,
    fst get1 = mock.Body j1 /\ fst get2 = mock.Body j2
    /\ fst get3 = mock.Body j3
    /\ Status j3 = Status j1
    /\ (Status j1 = mock.InitialState job \/ Status j1 = mock.FinalState job)
    /\ (Status j2 = mock.InitialState job \/ Status j2 = mock.FinalState job)
    /\ (mock.InitialState job <> mock.FinalState job ->
        Status j2 <> Status j1).
Proof.
  intros get1 get2 get3 Hjob.
  unfold get3, get2, get1.
  rewrite (returnJobByID_found _ _ _ _ Hjob). simpl.
  erewrite returnJobByID_found by (simpl; apply lookup_insert_eq). simpl.
  erewrite returnJobByID_found by (simpl; apply lookup_insert_eq). simpl.
  do 3 eexists. split; [done|]. split; [done|]. split; [done|].
  destruct (decide (Status (mock.Job job) = mock.InitialState job));
    simpl;
    repeat (match goal with
            | |- context [decide (?a = ?b)] => destruct (decide (a = b))
            end; simpl in *);
    repeat split; auto; try congruence.
Qed.

(** X15. The GET handler of a job, [handleJob] with a job id, touches
    one job at most: in every case it leaves every other job and the
    iterator list as they were, and of the induced errors it changes
    [GetJobCannotFindRoleForUser] alone, which it clears unless
    [GetJobError] is set. With [GetJobError] it answers 408 and changes
    nothing; otherwise, with [GetJobCannotFindRoleForUser], it answers 500
    and leaves the jobs alone; with neither, the GET of a job the mock
    does not hold answers 404 with "Job not found: " and the id and
    changes nothing. *)
Theorem mock_job_get_touches_one_job (now jobID : string) (st : mock.State) :
  let get := mock.handleJob now jobID st in
  jobID <> "" ->
  (forall other : string,
     other <> jobID ->
     mock.JobIDToMockJob (mock.data (snd get)) !! other
     = mock.JobIDToMockJob (mock.data st) !! other)
  /\ mock.VolumeIDIteratorList (mock.data (snd get))
     = mock.VolumeIDIteratorList (mock.data st)
  /\ mock.GetVolumeIteratorError (mock.induced (snd get))
     = mock.GetVolumeIteratorError (mock.induced st)
  /\ mock.GetJobError (mock.induced (snd get))
     = mock.GetJobError (mock.induced st)
  /\ mock.GetJobCannotFindRoleForUser (mock.induced (snd get))
     = mock.GetJobCannotFindRoleForUser (mock.induced st)
       && mock.GetJobError (mock.induced st)
  /\ (mock.GetJobError (mock.induced st) = true ->
      get = (mock.Error "Error getting Job(s): induced error" 408, st))
  /\ (mock.GetJobError (mock.induced st) = false ->
      mock.GetJobCannotFindRoleForUser (mock.induced st) = true ->
      fst get = mock.Error "Cannot find role for user" 500
      /\ mock.data (snd get) = mock.data st)
  /\ (mock.GetJobError (mock.induced st) = false ->
      mock.GetJobCannotFindRoleForUser (mock.induced st) = false ->
      mock.JobIDToMockJob (mock.data st) !! jobID = None ->
      get = (mock.Error ("Job not found: " +:+ jobID) 404, st)).
Proof.
  intros get _. unfold get, mock.handleJob.
  destruct st as [d [iteratorError jobError roleError]]. simpl.
  destruct jobError;
    [repeat split; intros; try done; by destruct roleError|].
  destruct roleError; [repeat split; intros; done|].
  unfold mock.returnJobByID. simpl.
  destruct (mock.JobIDToMockJob d !! jobID) as [job|] eqn:Hjob; simpl.
  - repeat split; intros; try done.
    by rewrite lookup_insert_ne.
  - repeat split; intros; done.
Qed.

(** X16. [NewMockJob] stores the job under its id with the status
    SCHEDULED, in place of any job of that id, and leaves the other jobs
    alone; the first GET of the new job reports its initial state with
    "Mock job in-progress", unless the initial state is SCHEDULED itself:
    then the first GET already reports the final state with "Mock job
    completed". *)
Theorem new_mock_job_first_get
    (now jobID initialState finalState resourceLink : string)
    (st : mock.State) :
  let st0 :=
    snd (mock.NewMockJob jobID initialState finalState resourceLink st) in
  mock.JobIDToMockJob (mock.data st0) !! jobID
  = Some (mock.mkJobInfo (mkJob jobID "SCHEDULED" "" resourceLink "")
            initialState finalState)
  /\ (forall other : string,
        other <> jobID ->
        mock.JobIDToMockJob (mock.data st0) !! other
        = mock.JobIDToMockJob (mock.data st) !! other)
  /\ fst (mock.returnJobByID now jobID st0)
     = mock.Body
         (if decide (initialState = "SCHEDULED")
          then mkJob jobID finalState now resourceLink "Mock job completed"
          else mkJob jobID initialState "" resourceLink
                     "Mock job in-progress").
Proof.
  intros st0. unfold st0, mock.NewMockJob. simpl.
  split; [apply lookup_insert_eq|].
  split; [intros other Hne; by rewrite lookup_insert_ne|].
  erewrite returnJobByID_found by (simpl; apply lookup_insert_eq). simpl.
  destruct (decide ("SCHEDULED" = initialState)) as [Heq|Hne];
    destruct (decide (initialState = "SCHEDULED")); try done; congruence.
Qed.

(** ** The resource of a job *)

Lemma Split_nonempty (s : string) (sep : Ascii.ascii) : Split s sep <> [].
Proof.
  destruct s as [|a s]; simpl; [done|].
  destruct (decide (a = sep)); [done|]. by destruct (Split s sep).
Qed.

Lemma Split_app (a b : string) (sep : Ascii.ascii) :
  Split (a +:+ String sep b) sep = Split a sep ++ Split b sep.
Proof.
  induction a as [|c a IH]; simpl.
  - by destruct (decide (sep = sep)).
  - destruct (decide (c = sep)); [by rewrite IH|].
    rewrite IH. pose proof (Split_nonempty a sep) as Hne.
    by destruct (Split a sep).
Qed.

Lemma Split_free (x : string) (sep : Ascii.ascii) :
  free_of sep x -> Split x sep = [x].
Proof.
  induction x as [|c x IH]; intros Hfree; simpl; [done|].
  destruct (decide (c = sep)) as [->|Hne].
  - exfalso. by apply (Hfree "" x).
  - rewrite IH; [done|].
    intros s1 s2 ->. by apply (Hfree (String c s1) s2).
Qed.

(** X17. [GetJobResource] returns the last three components of a
    resource link: for components [sym], [kind] and [id] that hold no
    "/", the link [sym/kind/id], with or without a path and a "/" in
    front of it, is parsed into ([sym], [kind], [id]). It returns three
    empty strings for an empty link and for a link with fewer than three
    components: [sym] alone, or [sym/kind]. *)
Theorem job_resource_is_last_three_parts
    (jobID status completed result path sym kind id : string) :
  free_of "/" sym -> free_of "/" kind -> free_of "/" id ->
  GetJobResource
    (mkJob jobID status completed
           (sym +:+ "/" +:+ kind +:+ "/" +:+ id) result)
  = (sym, kind, id)
  /\ GetJobResource
       (mkJob jobID status completed
              (path +:+ "/" +:+ sym +:+ "/" +:+ kind +:+ "/" +:+ id) result)
     = (sym, kind, id)
  /\ GetJobResource (mkJob jobID status completed "" result) = ("", "", "")
  /\ GetJobResource (mkJob jobID status completed sym result) = ("", "", "")
  /\ GetJobResource (mkJob jobID status completed (sym +:+ "/" +:+ kind)
                           result)
     = ("", "", "").
Proof.
  intros Hs Hk Hi.
  assert (forall p : string,
            Split (p +:+ "/" +:+ sym +:+ "/" +:+ kind +:+ "/" +:+ id) "/"
            = Split p "/" ++ [sym; kind; id]) as Hsplit.
  { intros p.
    change (p +:+ "/" +:+ sym +:+ "/" +:+ kind +:+ "/" +:+ id)
      with (p +:+ String "/" (sym +:+ String "/" (kind +:+ String "/" id))).
    rewrite !Split_app.
    by rewrite (Split_free sym), (Split_free kind), (Split_free id). }
  assert (Split (sym +:+ "/" +:+ kind +:+ "/" +:+ id) "/" = [sym; kind; id])
    as Hsplit0.
  { change (sym +:+ "/" +:+ kind +:+ "/" +:+ id)
      with (sym +:+ String "/" (kind +:+ String "/" id)).
    rewrite !Split_app.
    by rewrite (Split_free sym), (Split_free kind), (Split_free id). }
  split; [|split; [|split; [done|split]]];
    unfold GetJobResource; simpl ResourceLink.
  - destruct (decide (sym +:+ "/" +:+ kind +:+ "/" +:+ id = "")) as [He|_].
    { apply (f_equal (fun s => Split s "/")) in He.
      rewrite Hsplit0 in He. done. }
    rewrite Hsplit0. done.
  - destruct (decide (path +:+ "/" +:+ sym +:+ "/" +:+ kind +:+ "/" +:+ id
                      = "")) as [He|_].
    { apply (f_equal (fun s => length (Split s "/"))) in He.
      rewrite Hsplit, length_app in He. simpl in He. lia. }
    rewrite Hsplit, length_app. simpl length.
    destruct (decide (length (Split path "/") + 3 < 3)%nat); [lia|].
    unfold part.
    replace (length (Split path "/") + 3 - 3)%nat
      with (length (Split path "/") + 0)%nat by lia.
    replace (length (Split path "/") + 3 - 2)%nat
      with (length (Split path "/") + 1)%nat by lia.
    replace (length (Split path "/") + 3 - 1)%nat
      with (length (Split path "/") + 2)%nat by lia.
    rewrite !lookup_app_r by lia.
    replace (length (Split path "/") + 0 - length (Split path "/"))%nat
      with 0%nat by lia.
    replace (length (Split path "/") + 1 - length (Split path "/"))%nat
      with 1%nat by lia.
    replace (length (Split path "/") + 2 - length (Split path "/"))%nat
      with 2%nat by lia.
    done.
  - destruct (decide (sym = "")); [done|]. by rewrite Split_free.
  - destruct (decide (sym +:+ "/" +:+ kind = "")); [done|].
    change (sym +:+ "/" +:+ kind) with (sym +:+ String "/" kind).
    rewrite Split_app, (Split_free sym), (Split_free kind) by done. done.
Qed.

Lemma free_of_Split (x : string) (sep : Ascii.ascii) :
  Split x sep = [x] -> free_of sep x.
Proof.
  intros Hx s1 s2 ->. rewrite Split_app in Hx.
  apply (f_equal length) in Hx. rewrite length_app in Hx. simpl in Hx.
  pose proof (Split_nonempty s1 sep). pose proof (Split_nonempty s2 sep).
  destruct (Split s1 sep), (Split s2 sep); simpl in *; try done; lia.
Qed.

(** ** The initiators of a host *)

Lemma stringInSlice_elem (a : string) (l : list string) :
  stringInSlice a l = true <-> a ∈ l.
Proof.
  induction l as [|b l IH]; simpl.
  - split; [done|]. by intros H%elem_of_nil.
  - destruct (decide (b = a)) as [->|Hne].
    + split; [intros _; apply list_elem_of_here|done].
    + rewrite IH. split.
      * intros H. by apply list_elem_of_further.
      * intros H. apply elem_of_cons in H as [->|H]; done.
Qed.

Lemma notInSlice_elem (x : string) (l other : list string) :
  x ∈ notInSlice l other <-> x ∈ l /\ x ∉ other.
Proof.
  induction l as [|a l IH]; simpl.
  - split; [by intros H%elem_of_nil|by intros [H%elem_of_nil _]].
  - destruct (stringInSlice a other) eqn:Ha.
    + apply stringInSlice_elem in Ha. rewrite IH. split.
      * intros [H1 H2]. split; [by apply list_elem_of_further|done].
      * intros [H1 H2]. split; [|done].
        apply elem_of_cons in H1 as [->|H1]; done.
    + assert (a ∉ other) as Hnot.
      { intros H. apply stringInSlice_elem in H. congruence. }
      rewrite elem_of_cons, IH, elem_of_cons. split.
      * intros [->|[H1 H2]]; [by split; [left|]|by split; [right|]].
      * intros [[->|H1] H2]; [by left|by right].
Qed.

Lemma notInSlice_nil (l other : list string) :
  notInSlice l other = [] <-> (forall x, x ∈ l -> x ∈ other).
Proof.
  split.
  - intros Hnil x Hx. destruct (decide (x ∈ other)) as [|Hnot]; [done|].
    assert (x ∈ notInSlice l other) as H by by apply notInSlice_elem.
    rewrite Hnil in H. by apply elem_of_nil in H.
  - intros Hall. destruct (notInSlice l other) as [|x rest] eqn:Hn; [done|].
    assert (x ∈ notInSlice l other) as H
      by (rewrite Hn; apply list_elem_of_here).
    apply notInSlice_elem in H as [H1 H2]. by apply Hall in H1.
Qed.

Lemma len_pos {A : Type} (l : list A) : l <> [] -> (len l >? 0) = true.
Proof.
  intros Hne. rewrite Z.gtb_ltb. apply Z.ltb_lt. unfold len.
  destruct l; [done|simpl; lia].
Qed.

(** X18. When the requested initiators are those the host has, as sets,
    [UpdateHostInitiators] issues no request and returns, without an
    error, an empty host record (no id, no initiators), not the host it
    was given. A nil host is refused with "Host can't be nil". *)
Theorem unchanged_initiators_issue_no_request {S : Type}
    (api_PutHost :
       string -> string -> UpdateHostParam -> Host -> S -> (string + Host) * S)
    (IsAllowedArray : string -> bool * option string) (symID : string)
    (allowed : bool) (host : Host) (initiatorIDs : list string)
    (w : S * list (string * UpdateHostParam)) :
  IsAllowedArray symID = (allowed, None) ->
  (forall x : string, x ∈ initiatorIDs <-> x ∈ Initiators host) ->
  UpdateHostInitiators api_PutHost IsAllowedArray symID (Some host)
    initiatorIDs w = (Ok (mkHost "" []), w)
  /\ UpdateHostInitiators api_PutHost IsAllowedArray symID None
       initiatorIDs w = (Err "Host can't be nil", w).
Proof.
  intros Hallowed Hsame. unfold UpdateHostInitiators. rewrite Hallowed.
  split; [|done].
  assert (notInSlice initiatorIDs (Initiators host) = []) as ->
    by (apply notInSlice_nil; intros x; apply Hsame).
  assert (notInSlice (Initiators host) initiatorIDs = []) as ->
    by (apply notInSlice_nil; intros x; apply Hsame).
  done.
Qed.

(** X19. [UpdateHostInitiators] adds before it removes, and never both
    for one initiator: the first PUT carries, in the order of the request,
    the requested initiators that the host lacks, the second PUT the
    initiators of the host that are not requested, and the record decoded
    from the second response, on top of the first, is returned. When the
    first PUT fails, its error is returned and nothing is removed. *)
Theorem initiators_are_added_then_removed {S : Type}
    (api_PutHost :
       string -> string -> UpdateHostParam -> Host -> S -> (string + Host) * S)
    (IsAllowedArray : string -> bool * option string) (symID e : string)
    (allowed : bool) (host added updated : Host)
    (initiatorIDs : list string) (s s1 s2 : S)
    (log : list (string * UpdateHostParam)) :
  let initAdd := notInSlice initiatorIDs (Initiators host) in
  let initRemove := notInSlice (Initiators host) initiatorIDs in
  IsAllowedArray symID = (allowed, None) ->
  initAdd <> [] ->
  initRemove <> [] ->
  (forall x : string,
     (x ∈ initAdd <-> x ∈ initiatorIDs /\ x ∉ Initiators host)
     /\ (x ∈ initRemove <-> x ∈ Initiators host /\ x ∉ initiatorIDs)
     /\ ~ (x ∈ initAdd /\ x ∈ initRemove))
  /\ (api_PutHost symID (HostID host) (UpdateHostAddInitiatorsParam initAdd)
        (mkHost "" []) s = (inl e, s1) ->
      UpdateHostInitiators api_PutHost IsAllowedArray symID (Some host)
        initiatorIDs (s, log)
      = (Err e,
         (s1, log ++ [(HostID host, UpdateHostAddInitiatorsParam initAdd)])))
  /\ (api_PutHost symID (HostID host) (UpdateHostAddInitiatorsParam initAdd)
        (mkHost "" []) s = (inr added, s1) ->
      api_PutHost symID (HostID host)
        (UpdateHostRemoveInititorsParam initRemove) added s1
      = (inr updated, s2) ->
      UpdateHostInitiators api_PutHost IsAllowedArray symID (Some host)
        initiatorIDs (s, log)
      = (Ok updated,
         (s2, log ++ [(HostID host, UpdateHostAddInitiatorsParam initAdd);
                      (HostID host,
                       UpdateHostRemoveInititorsParam initRemove)]))).
Proof.
  intros initAdd initRemove Hallowed Hadd Hremove.
  split; [|split].
  - intros x. unfold initAdd, initRemove. rewrite !notInSlice_elem.
    repeat split; try tauto.
  - intros Hput. unfold UpdateHostInitiators. rewrite Hallowed.
    fold initAdd initRemove. rewrite (len_pos _ Hadd).
    unfold putHost. simpl. by rewrite Hput.
  - intros Hput1 Hput2. unfold UpdateHostInitiators. rewrite Hallowed.
    fold initAdd initRemove. rewrite (len_pos _ Hadd), (len_pos _ Hremove).
    unfold putHost. simpl. rewrite Hput1. simpl. rewrite Hput2.
    by rewrite <- app_assoc.
Qed.

(** ** The mock's helpers on slices *)

(** X20. [compareAndCheck] is true exactly when the two slices have no
    element in common: it is true when either is empty, and false for two
    equal slices that are not empty. *)
Theorem compareAndCheck_tests_disjointness (slice1 slice2 : list string) :
  (mockpg.compareAndCheck slice1 slice2 = true
   <-> (forall x : string, x ∈ slice1 -> x ∉ slice2))
  /\ mockpg.compareAndCheck [] slice2 = true
  /\ mockpg.compareAndCheck slice1 [] = true
  /\ (slice1 <> [] -> mockpg.compareAndCheck slice1 slice1 = false).
Proof.
  assert (forall l1 l2 : list string,
            mockpg.compareAndCheck l1 l2 = true
            <-> (forall x : string, x ∈ l1 -> x ∉ l2)) as Hiff.
  { intros l1 l2. induction l1 as [|a l1 IH]; simpl.
    - split; [|done]. intros _ x H. by apply elem_of_nil in H.
    - destruct (existsb (fun item1 => bool_decide (a = item1)) l2) eqn:Hex.
      + split; [done|]. intros Hall. exfalso.
        apply existsb_exists in Hex as (y & Hin & Hy).
        apply bool_decide_eq_true in Hy. subst y.
        apply (Hall a); [apply list_elem_of_here|by apply list_elem_of_In].
      + rewrite IH. split.
        * intros Hall x Hx. apply elem_of_cons in Hx as [->|Hx]; [|by apply Hall].
          intros Hin. apply list_elem_of_In in Hin.
          assert (existsb (fun item1 => bool_decide (a = item1)) l2 = true)
            as Ht.
          { apply existsb_exists. exists a. split; [done|].
            by apply bool_decide_eq_true. }
          congruence.
        * intros Hall x Hx. apply Hall. by apply list_elem_of_further. }
  split; [apply Hiff|]. split; [done|].
  split.
  - apply Hiff. intros x _ H. by apply elem_of_nil in H.
  - intros Hne. destruct (mockpg.compareAndCheck slice1 slice1) eqn:Hc;
      [|done].
    exfalso. destruct slice1 as [|a l]; [done|].
    apply (proj1 (Hiff _ _) Hc a); apply list_elem_of_here.
Qed.

Lemma uniqueElements_loop_spec (slice : list string) :
  forall (keys : gmap string bool) (uniq : list string),
    (forall x : string, is_Some (keys !! x) <-> x ∈ uniq) ->
    NoDup uniq ->
    exists rest : list string,
      mockpg.uniqueElements_loop slice keys uniq = uniq ++ rest
      /\ NoDup (uniq ++ rest)
      /\ rest `sublist_of` slice
      /\ (forall x : string, x ∈ uniq ++ rest <-> x ∈ uniq \/ x ∈ slice)
      /\ (NoDup slice -> (forall x, x ∈ slice -> x ∉ uniq) -> rest = slice).
Proof.
  induction slice as [|entry slice IH]; intros keys uniq Hkeys Hnd; simpl.
  - exists []. rewrite app_nil_r. repeat split; try done.
    + intros H. by left.
    + intros [H|H]; [done|by apply elem_of_nil in H].
  - destruct (keys !! entry) as [b|] eqn:Hentry.
    + destruct (IH keys uniq Hkeys Hnd) as (rest & Heq & Hnd' & Hsub & Hel & Hid).
      exists rest. split; [done|]. split; [done|].
      split; [by apply sublist_cons|]. split.
      * intros x. rewrite Hel, elem_of_cons.
        assert (entry ∈ uniq) as Hin by (apply Hkeys; eauto).
        split; [tauto|]. intros [H|[->|H]]; auto.
      * intros Hnds Hfresh. exfalso.
        apply (Hfresh entry); [apply list_elem_of_here|].
        apply Hkeys. eauto.
    + assert (entry ∉ uniq) as Hfresh.
      { intros H. apply Hkeys in H as [b Hb]. congruence. }
      destruct (IH (<[entry := true]> keys) (uniq ++ [entry]))
        as (rest & Heq & Hnd' & Hsub & Hel & Hid).
      { intros x. rewrite elem_of_app, list_elem_of_singleton.
        destruct (decide (x = entry)) as [->|Hne].
        - rewrite lookup_insert_eq. split; [auto|eauto].
        - rewrite lookup_insert_ne by done. rewrite Hkeys. tauto. }
      { apply NoDup_app. split; [done|]. split; [|apply NoDup_singleton].
        intros x Hx Hin. apply list_elem_of_singleton in Hin. by subst. }
      exists (entry :: rest). rewrite <- app_assoc in Heq, Hnd'. simpl in *.
      split; [done|]. split; [done|].
      split; [by apply sublist_skip|]. split.
      * intros x. specialize (Hel x). rewrite <- app_assoc in Hel.
        simpl in Hel. rewrite Hel, elem_of_app, list_elem_of_singleton,
          elem_of_cons. tauto.
      * intros Hnds Hfr. apply NoDup_cons in Hnds as [Hnotin Hnds].
        f_equal. apply Hid; [done|].
        intros x Hx Hin. apply elem_of_app in Hin as [Hin|Hin].
        -- apply (Hfr x); [by apply list_elem_of_further|done].
        -- apply list_elem_of_singleton in Hin. by subst.
Qed.

Lemma uniqueElements_loop_filter (slice : list string) :
  forall (keys : gmap string bool) (uniq : list string),
    (forall x : string, is_Some (keys !! x) <-> x ∈ uniq) ->
    mockpg.uniqueElements_loop slice keys uniq
    = uniq ++ filter (fun y => y ∉ uniq) (mockpg.uniqueElements slice).
Proof.
  unfold mockpg.uniqueElements.
  induction slice as [|e rest IH]; intros keys uniq Hkeys; simpl.
  - by rewrite filter_nil, app_nil_r.
  - rewrite lookup_empty.
    assert (forall x : string,
              is_Some ((<[e := true]> ∅ : gmap string bool) !! x) <-> x ∈ [e])
      as Hsingle.
    { intros x. rewrite list_elem_of_singleton.
      destruct (decide (x = e)) as [->|Hne].
      - rewrite lookup_insert_eq. split; [done|eauto].
      - rewrite lookup_insert_ne, lookup_empty by done.
        split; [by intros [? ?]|done]. }
    rewrite (IH (<[e := true]> ∅) [e] Hsingle).
    destruct (keys !! e) as [b|] eqn:He.
    + assert (e ∈ uniq) as Hin by (apply Hkeys; eauto).
      rewrite (IH keys uniq Hkeys). f_equal. simpl.
      rewrite filter_cons_False by (intros H; by apply H).
      rewrite list_filter_filter. apply list_filter_iff.
      intros x. rewrite list_elem_of_singleton. split.
      * intros H. split; [done|]. by intros ->.
      * by intros [H _].
    + assert (e ∉ uniq) as Hnot.
      { intros H. apply Hkeys in H as [b Hb]. congruence. }
      rewrite (IH (<[e := true]> keys) (uniq ++ [e])).
      * rewrite <- app_assoc. f_equal. simpl.
        rewrite filter_cons_True by done. f_equal.
        rewrite list_filter_filter. apply list_filter_iff.
        intros x. rewrite elem_of_app. tauto.
      * intros x. rewrite elem_of_app, list_elem_of_singleton.
        destruct (decide (x = e)) as [->|Hne].
        -- rewrite lookup_insert_eq. split; [auto|eauto].
        -- rewrite lookup_insert_ne by done. rewrite Hkeys. tauto.
Qed.

Lemma uniqueElements_cons (x : string) (slice : list string) :
  mockpg.uniqueElements (x :: slice)
  = x :: filter (fun y => y <> x) (mockpg.uniqueElements slice).
Proof.
  unfold mockpg.uniqueElements at 1. simpl. rewrite lookup_empty.
  rewrite (uniqueElements_loop_filter slice (<[x := true]> ∅) [x]).
  - simpl. f_equal. apply list_filter_iff. intros y.
    by rewrite list_elem_of_singleton.
  - intros y. rewrite list_elem_of_singleton.
    destruct (decide (y = x)) as [->|Hne].
    + rewrite lookup_insert_eq. split; [done|eauto].
    + rewrite lookup_insert_ne, lookup_empty by done.
      split; [by intros [? ?]|done].
Qed.

Lemma filter_all {A : Type} (P : A -> Prop) `{forall x, Decision (P x)}
    (l : list A) :
  (forall x, P x) -> filter P l = l.
Proof.
  intros HP. induction l as [|a l IH]; [done|].
  rewrite filter_cons_True by done. by f_equal.
Qed.

Lemma uniqueElements_app (l1 l2 : list string) :
  mockpg.uniqueElements (l1 ++ l2)
  = mockpg.uniqueElements l1
    ++ filter (fun y => y ∉ l1) (mockpg.uniqueElements l2).
Proof.
  induction l1 as [|x l1 IH].
  - simpl. symmetry. apply filter_all. intros y. apply not_elem_of_nil.
  - change ((x :: l1) ++ l2) with (x :: (l1 ++ l2)).
    rewrite !uniqueElements_cons, IH, filter_app. simpl. f_equal. f_equal.
    rewrite list_filter_filter. apply list_filter_iff.
    intros y. rewrite elem_of_cons. tauto.
Qed.

(** X21. [uniqueElements] returns the elements of the slice without
    repetition, each at the place of its first occurrence: the result has
    no duplicates, has the same elements as the slice, keeps their order
    (it is a sublist of the slice), and is the slice itself when the slice
    has no duplicates. The head of a slice is the head of the result,
    followed by the result for the tail without that element; and where
    [x] occurs first, after [l1], the result is the result for [l1], then
    [x], then the result for what follows without [x] and the elements of
    [l1]. *)
Theorem uniqueElements_keeps_first_occurrences (slice : list string) :
  NoDup (mockpg.uniqueElements slice)
  /\ (forall x : string, x ∈ mockpg.uniqueElements slice <-> x ∈ slice)
  /\ mockpg.uniqueElements slice `sublist_of` slice
  /\ (NoDup slice -> mockpg.uniqueElements slice = slice)
  /\ mockpg.uniqueElements [] = []
  /\ (forall x : string,
        mockpg.uniqueElements (x :: slice)
        = x :: filter (fun y => y <> x) (mockpg.uniqueElements slice))
  /\ (forall (x : string) (l1 l2 : list string),
        slice = l1 ++ x :: l2 ->
        x ∉ l1 ->
        mockpg.uniqueElements slice
        = mockpg.uniqueElements l1
          ++ x :: filter (fun y => (y ∉ l1) /\ y <> x)
                         (mockpg.uniqueElements l2)).
Proof.
  split; [|split; [|split; [|split; [|split; [done|split]]]]].
  1-4: unfold mockpg.uniqueElements;
    destruct (uniqueElements_loop_spec slice ∅ [])
      as (rest & Heq & Hnd & Hsub & Hel & Hid);
    [ intros x; rewrite lookup_empty; split; [by intros [? ?]|];
      by intros H%elem_of_nil
    | apply NoDup_nil_2
    | rewrite Heq; simpl in * ].
  - done.
  - intros x. split.
    + intros H. apply Hel in H as [H|H]; [by apply elem_of_nil in H|done].
    + intros H. apply Hel. by right.
  - done.
  - intros Hnds. apply Hid; [done|]. intros x _ H. by apply elem_of_nil in H.
  - intros x. apply uniqueElements_cons.
  - intros x l1 l2 -> Hnot.
    rewrite uniqueElements_app, uniqueElements_cons.
    rewrite filter_cons_True by done. f_equal. f_equal.
    by rewrite list_filter_filter.
Qed.

(** ** The mock's port groups *)

Lemma samePort_eq (thisKey keyToRemove : mockpg.PortKey) :
  mockpg.samePort thisKey keyToRemove = true <-> thisKey = keyToRemove.
Proof.
  unfold mockpg.samePort. destruct thisKey as [d p], keyToRemove as [d' p'].
  simpl. rewrite andb_true_iff, !bool_decide_eq_true.
  split; [by intros [-> ->]|by intros [= -> ->]].
Qed.

Lemma samePort_ne (thisKey keyToRemove : mockpg.PortKey) :
  thisKey <> keyToRemove -> mockpg.samePort thisKey keyToRemove = false.
Proof.
  intros Hne. destruct (mockpg.samePort thisKey keyToRemove) eqn:H; [|done].
  by apply samePort_eq in H.
Qed.

Lemma findPortKey_skip (key : mockpg.PortKey) (l1 rest : list mockpg.PortKey) :
  forall it : nat,
    key ∉ l1 ->
    mockpg.findPortKey (l1 ++ rest) key it
    = mockpg.findPortKey rest key (it + length l1).
Proof.
  induction l1 as [|a l1 IH]; intros it Hnot; simpl.
  - by rewrite Nat.add_0_r.
  - rewrite samePort_ne.
    + rewrite IH; [f_equal; lia|].
      intros H. apply Hnot. by apply list_elem_of_further.
    + intros ->. apply Hnot. apply list_elem_of_here.
Qed.

Lemma removePortKey_first (key : mockpg.PortKey)
    (l1 l2 : list mockpg.PortKey) :
  key ∉ l1 -> mockpg.removePortKey (l1 ++ key :: l2) key = l1 ++ l2.
Proof.
  intros Hnot. unfold mockpg.removePortKey.
  rewrite findPortKey_skip by done. simpl.
  rewrite (proj2 (samePort_eq key key) eq_refl). simpl.
  assert (drop (Datatypes.S (length l1)) (l1 ++ key :: l2) = l2) as Hdrop.
  { rewrite (cons_middle key l1 l2), app_assoc. apply drop_app_length'.
    rewrite length_app. simpl. lia. }
  by rewrite take_app_length, Hdrop.
Qed.

Lemma removePortKey_absent (key : mockpg.PortKey)
    (slice : list mockpg.PortKey) :
  key ∉ slice -> mockpg.removePortKey slice key = slice.
Proof.
  intros Hnot. unfold mockpg.removePortKey.
  rewrite <- (app_nil_r slice) at 1.
  by rewrite findPortKey_skip.
Qed.

(** X22. The slice that [removePortKey] returns lacks the first
    occurrence of the key and nothing else: later occurrences stay, the
    order of the other keys is kept, and a slice without the key is
    returned as it is. *)
Theorem removePortKey_removes_first_occurrence (key : mockpg.PortKey)
    (slice l1 l2 : list mockpg.PortKey) :
  (key ∉ slice -> mockpg.removePortKey slice key = slice)
  /\ (slice = l1 ++ key :: l2 -> key ∉ l1 ->
      mockpg.removePortKey slice key = l1 ++ l2
      /\ (key ∈ l2 -> key ∈ mockpg.removePortKey slice key)).
Proof.
  split; [apply removePortKey_absent|].
  intros -> Hnot. rewrite removePortKey_first by done.
  split; [done|]. intros Hin. apply elem_of_app. by right.
Qed.

(** X23. A port group added under a fresh id is stored with its keys, a
    port count equal to their number, no masking view and the given type,
    and it is the group returned; adding under the same id again fails
    with "Error! Port Group already exists" and changes nothing;
    [DeletePortGroup] returns the stored group and gives back the table
    from before the addition, and on the table without the group it fails
    with "Error! PortGroup [id] does not exist.". *)
Theorem port_group_add_delete_round_trip
    (portGroupID portGroupType otherType : string)
    (portKeys otherKeys : list mockpg.PortKey) (t : mockpg.Table) :
  let pg := mockpg.mkPortGroup portGroupID portKeys (len portKeys) 0
                               portGroupType in
  let t' := snd (mockpg.addPortGroup portGroupID portGroupType portKeys t) in
  t !! portGroupID = None ->
  mockpg.addPortGroup portGroupID portGroupType portKeys t
  = (inr (Some pg), <[portGroupID := pg]> t)
  /\ mockpg.addPortGroup portGroupID otherType otherKeys t'
     = (inl "Error! Port Group already exists", t')
  /\ mockpg.DeletePortGroup portGroupID t' = (inr pg, t)
  /\ mockpg.DeletePortGroup portGroupID t
     = (inl ("Error! PortGroup " +:+ portGroupID +:+ " does not exist."), t).
Proof.
  intros pg t' Hfresh. unfold t', mockpg.addPortGroup, mockpg.DeletePortGroup.
  rewrite Hfresh. unfold mockpg.newPortGroup. cbn [snd]. fold pg.
  assert (<[portGroupID := pg]> t !! portGroupID = Some pg) as ->
    by apply lookup_insert_eq.
  repeat split. f_equal. by apply delete_insert_id.
Qed.

Lemma foldl_removePortKey_absent (removeKeys ports : list mockpg.PortKey) :
  (forall key, key ∈ removeKeys -> key ∉ ports) ->
  foldl mockpg.removePortKey ports removeKeys = ports.
Proof.
  induction removeKeys as [|key rest IH]; intros Hall; simpl; [done|].
  rewrite removePortKey_absent by (apply Hall, list_elem_of_here).
  apply IH. intros k Hk. apply Hall. by apply list_elem_of_further.
Qed.


Lemma Split_pair (d p : string) (sep : Ascii.ascii) :
  free_of sep d -> free_of sep p ->
  Split (d +:+ String sep p) sep = [d; p].
Proof.
  intros Hd Hp. by rewrite Split_app, (Split_free d), (Split_free p).
Qed.

(** The identifier and the key of a director and a port. *)
Lemma portKeysOf_pairs (pairs : list (string * string)) :
  forall portKeys : list mockpg.PortKey,
    (forall dp, dp ∈ pairs -> free_of ":" dp.1 /\ free_of ":" dp.2) ->
    mockpg.portKeysOf (map (fun dp => dp.1 +:+ ":" +:+ dp.2) pairs) portKeys
    = inr (portKeys
           ++ map (fun dp => mockpg.mkPortKey dp.1 (dp.1 +:+ ":" +:+ dp.2))
                  pairs).
Proof.
  induction pairs as [|[d p] pairs IH]; intros portKeys Hall; simpl.
  - by rewrite app_nil_r.
  - destruct (Hall (d, p) (list_elem_of_here _ _)) as [Hd Hp]. simpl in *.
    change (d +:+ ":" +:+ p) with (d +:+ String ":" p).
    rewrite (Split_pair d p) by done. simpl.
    rewrite IH by (intros dp Hdp; apply Hall; by apply list_elem_of_further).
    by rewrite <- app_assoc.
Qed.

Lemma portKeysOf_app (ids1 ids2 : list string) :
  forall portKeys keys1 : list mockpg.PortKey,
    mockpg.portKeysOf ids1 portKeys = inr keys1 ->
    mockpg.portKeysOf (ids1 ++ ids2) portKeys = mockpg.portKeysOf ids2 keys1.
Proof.
  induction ids1 as [|id ids1 IH]; intros portKeys keys1 H; simpl in *.
  - by injection H as ->.
  - destruct (decide (length (Split id ":") = 2%nat)); [|done].
    by apply IH.
Qed.

(** X25. [AddPortGroup] takes identifiers of the form [director:port]:
    for directors and ports that hold no ":" and a fresh group id, it
    stores and returns a group with one key per identifier, in order,
    whose [DirectorID] is the director and whose [PortID] is the whole
    identifier, not the port alone. An identifier without ":" after
    well-formed ones makes the call fail with the error built from
    "Invalid dir port specified: " and that identifier, and nothing is
    stored. *)
Theorem AddPortGroup_parses_director_and_port (Errorf0 : string -> string)
    (portGroupID portGroupType bad : string)
    (pairs : list (string * string)) (rest : list string)
    (t : mockpg.Table) :
  let identifiers := map (fun dp => dp.1 +:+ ":" +:+ dp.2) pairs in
  let pg :=
    mockpg.mkPortGroup portGroupID
      (map (fun dp => mockpg.mkPortKey dp.1 (dp.1 +:+ ":" +:+ dp.2)) pairs)
      (len pairs) 0 portGroupType in
  (forall dp, dp ∈ pairs -> free_of ":" dp.1 /\ free_of ":" dp.2) ->
  (t !! portGroupID = None ->
   mockpg.AddPortGroup Errorf0 portGroupID portGroupType identifiers t
   = (inr (Some pg), <[portGroupID := pg]> t))
  /\ (free_of ":" bad ->
      mockpg.AddPortGroup Errorf0 portGroupID portGroupType
        (identifiers ++ bad :: rest) t
      = (inl (Errorf0 ("Invalid dir port specified: " +:+ bad)), t)).
Proof.
  intros identifiers pg Hall. unfold mockpg.AddPortGroup. split.
  - intros Hfresh. unfold identifiers.
    rewrite portKeysOf_pairs by done. simpl. rewrite Hfresh.
    unfold mockpg.newPortGroup, pg, len. rewrite !length_map.
    f_equal. f_equal. apply lookup_insert_eq.
  - intros Hbad. unfold identifiers.
    erewrite portKeysOf_app by (by apply portKeysOf_pairs).
    simpl. by rewrite (Split_free bad).
Qed.

(** ** The mock's storage groups and volumes *)

(** X26. The payload that the client builds for a new storage group is
    one the mock can store: [AddStorageGroupFromCreateParams] does not
    index an empty slice on it, and under a fresh id it stores a group
    without volumes and masking views whose pool and service level are
    those of the payload, or no pool and the level "None" when the pool
    is "None". A group that exists already is left as it is, without a
    report. *)
Theorem created_storage_group_is_stored
    (storageGroupID srpID serviceLevel : string) (thickVolumes : bool)
    (d : mocksg.Tables) :
  let payload :=
    GetCreateStorageGroupPayload storageGroupID srpID serviceLevel
                                 thickVolumes in
  let sg :=
    mocksg.mkStorageGroup storageGroupID
      (if decide (srpID = "None") then "None" else serviceLevel)
      (if decide (srpID = "None") then "" else srpID) 0 0 [] in
  (mocksg.StorageGroupIDToStorageGroup d !! storageGroupID = None ->
   mocksg.AddStorageGroupFromCreateParams payload d
   = Some (mocksg.mkTables (mocksg.VolumeIDToVolume d)
             (<[storageGroupID := sg]> (mocksg.StorageGroupIDToStorageGroup d))
             (<[storageGroupID := []]> (mocksg.StorageGroupIDToVolumes d))))
  /\ (is_Some (mocksg.StorageGroupIDToStorageGroup d !! storageGroupID) ->
      mocksg.AddStorageGroupFromCreateParams payload d = Some d).
Proof.
  intros payload sg.
  unfold payload, sg, mocksg.AddStorageGroupFromCreateParams,
    GetCreateStorageGroupPayload, mocksg.AddStorageGroup,
    mocksg.newStorageGroup.
  cbn [cp_SRPID cp_StorageGroupID cp_SLOBasedStorageGroupParam].
  split.
  - intros ->. by destruct (decide (srpID = "None")).
  - intros [old ->]. by destruct (decide (srpID = "None")).
Qed.

Lemma filter_ne_app_fresh (x : string) (l : list string) :
  x ∉ l -> filter (fun y => y <> x) (l ++ [x]) = l.
Proof.
  intros Hnot. rewrite filter_app, filter_cons_False by (intros H; by apply H).
  rewrite filter_nil, app_nil_r.
  induction l as [|a l IH]; [done|].
  rewrite filter_cons_True.
  - f_equal. apply IH. intros H. apply Hnot. by apply list_elem_of_further.
  - intros ->. apply Hnot. apply list_elem_of_here.
Qed.

Lemma wrap_add_sub_1 (n : Z) :
  GoInt.in_range n -> GoInt.sub (GoInt.add n 1) 1 = n.
Proof.
  intros Hn. unfold GoInt.sub, GoInt.add.
  replace (GoInt.wrap (n + 1) - 1) with (GoInt.wrap (n + 1) + (-1)) by lia.
  rewrite wrap_wrap_add. replace (n + 1 + -1) with n by lia.
  by apply wrap_in_range.
Qed.

(** X27. Adding a new volume to a storage group and removing it again
    gives back the group and its list of volumes: for a fresh volume id,
    a group of the table whose list does not hold the id and whose count
    is an [int], [AddNewVolume] succeeds, [removeOneVolumeFromStorageGroup]
    succeeds after it, and the tables of the groups and of their volumes
    are those from before. The volume is not removed with it: it stays in
    the table, in no group, and [deleteVolume] then accepts it. *)
Theorem volume_add_remove_round_trip
    (volumeID volumeIdentifier storageGroupID : string) (size : Z)
    (sg : mocksg.StorageGroup) (volumes : list string) (d : mocksg.Tables) :
  let added :=
    mocksg.AddNewVolume volumeID volumeIdentifier size storageGroupID d in
  let removed :=
    mocksg.removeOneVolumeFromStorageGroup volumeID storageGroupID
      (snd added) in
  mocksg.VolumeIDToVolume d !! volumeID = None ->
  mocksg.StorageGroupIDToStorageGroup d !! storageGroupID = Some sg ->
  mocksg.StorageGroupIDToVolumes d !! storageGroupID = Some volumes ->
  volumeID ∉ volumes ->
  GoInt.in_range (mocksg.NumOfVolumes sg) ->
  fst added = Ok tt
  /\ mocksg.StorageGroupIDToVolumes (snd added) !! storageGroupID
     = Some (volumes ++ [volumeID])
  /\ fst removed = Ok tt
  /\ mocksg.StorageGroupIDToStorageGroup (snd removed)
     = mocksg.StorageGroupIDToStorageGroup d
  /\ mocksg.StorageGroupIDToVolumes (snd removed)
     = mocksg.StorageGroupIDToVolumes d
  /\ mocksg.VolumeIDToVolume (snd removed) !! volumeID
     = Some (Some (mocksg.mkVolume volumeID volumeIdentifier size
                     ("600009700001979000465330303" +:+ volumeID) 0 0 []))
  /\ fst (mocksg.deleteVolume volumeID (snd removed)) = Ok tt.
Proof.
  intros added removed Hvol Hsg Hvols Hfresh Hrange.
  unfold removed, added, mocksg.AddNewVolume.
  rewrite Hvol, Hsg. unfold mocksg.newVolume. cbn [fst snd].
  cbn [mocksg.StorageGroupIDToVolumes mocksg.StorageGroupIDToStorageGroup
       mocksg.VolumeIDToVolume].
  rewrite Hvols. cbn [default].
  unfold mocksg.removeOneVolumeFromStorageGroup.
  cbn [mocksg.StorageGroupIDToVolumes mocksg.StorageGroupIDToStorageGroup
       mocksg.VolumeIDToVolume].
  rewrite !lookup_insert_eq.
  cbn [fst snd mocksg.StorageGroupIDToVolumes
       mocksg.StorageGroupIDToStorageGroup mocksg.VolumeIDToVolume
       mocksg.StorageGroupIDList mocksg.NumberOfStorageGroups
       mocksg.NumberOfFrontEndPaths mocksg.VolumeID mocksg.VolumeIdentifier
       mocksg.CapacityCYL mocksg.WWN].
  rewrite filter_ne_app_fresh by done.
  assert (filter (fun sgID => sgID <> storageGroupID) [storageGroupID] = [])
    as -> by (rewrite filter_cons_False by (intros H; by apply H); done).
  unfold id.
  assert (GoInt.sub 1 1 = 0) as -> by done.
  assert (forall sgs, (if mocksg.noGroupInSeveralViews sgs [] then 0 else 0)
                      = 0) as Hpaths by done.
  rewrite Hpaths.
  split; [done|]. split; [done|]. split; [done|].
  unfold mocksg.withNumOfVolumes.
  cbn [mocksg.StorageGroupID mocksg.SLO mocksg.SRP mocksg.NumOfVolumes
       mocksg.NumOfMaskingViews mocksg.MaskingView].
  rewrite wrap_add_sub_1 by done.
  split.
  { rewrite insert_insert_eq. apply insert_id. rewrite Hsg. by destruct sg. }
  split.
  { rewrite insert_insert_eq. by apply insert_id. }
  split; [apply lookup_insert_eq|].
  unfold mocksg.deleteVolume.
  cbn [mocksg.VolumeIDToVolume]. rewrite lookup_insert_eq. done.
Qed.

(** X28. [deleteVolume] does not free the id of a volume: it stores a nil
    pointer under it. After a volume that is in no storage group has been
    deleted, a second [deleteVolume] of the id dereferences that pointer,
    and [AddNewVolume] refuses the id with "The requested volume already
    exists". A volume that is in a storage group is not deleted, and an
    unknown id gives "Volume not found". *)
Theorem deleted_volume_id_stays_taken
    (volID volumeIdentifier storageGroupID : string) (size : Z)
    (vol : mocksg.Volume) (d : mocksg.Tables) :
  let d' := snd (mocksg.deleteVolume volID d) in
  (mocksg.VolumeIDToVolume d !! volID = None ->
   mocksg.deleteVolume volID d = (Err "Volume not found", d))
  /\ (mocksg.VolumeIDToVolume d !! volID = Some (Some vol) ->
      0 < mocksg.NumberOfStorageGroups vol ->
      mocksg.deleteVolume volID d
      = (Err "Volume present in storage group. Can't be deleted", d))
  /\ (mocksg.VolumeIDToVolume d !! volID = Some (Some vol) ->
      mocksg.NumberOfStorageGroups vol <= 0 ->
      fst (mocksg.deleteVolume volID d) = Ok tt
      /\ mocksg.VolumeIDToVolume d' !! volID = Some None
      /\ mocksg.deleteVolume volID d'
         = (Panic "invalid memory address or nil pointer dereference", d')
      /\ mocksg.AddNewVolume volID volumeIdentifier size storageGroupID d'
         = (Err "The requested volume already exists", d')).
Proof.
  intros d'. unfold d', mocksg.deleteVolume, mocksg.AddNewVolume.
  split; [by intros ->|]. split.
  - intros -> Hpos.
    by rewrite (proj2 (Z.gtb_lt _ _) Hpos).
  - intros -> Hle.
    assert ((mocksg.NumberOfStorageGroups vol >? 0) = false) as ->
      by (rewrite Z.gtb_ltb; apply Z.ltb_ge; lia).
    cbn [fst snd mocksg.VolumeIDToVolume]. rewrite !lookup_insert_eq. done.
Qed.

Lemma len_app_pos {A : Type} (l : list A) (x : A) :
  (len (l ++ [x]) >? 0) = true.
Proof. apply len_pos. by destruct l. Qed.

(** X29. [RemoveStorageGroup] removes a group only when it is in no
    masking view and has no volumes. A group just added under a fresh id
    is removed with the status 200 and the table of groups is the one
    from before, but its empty list of volumes stays in the table of
    volume lists. Once a volume has been added to the group the removal
    answers 500 and changes nothing, as it does for a group in a masking
    view; an unknown group answers 404. *)
Theorem storage_group_removal_round_trip
    (storageGroupID storageResourcePoolID serviceLevel : string)
    (volumeID volumeIdentifier : string) (size : Z)
    (viewed : mocksg.StorageGroup) (d d0 : mocksg.Tables) :
  let d1 :=
    snd (mocksg.AddStorageGroup storageGroupID storageResourcePoolID
                                serviceLevel d) in
  let d2 :=
    snd (mocksg.AddNewVolume volumeID volumeIdentifier size storageGroupID
                             d1) in
  mocksg.StorageGroupIDToStorageGroup d !! storageGroupID = None ->
  mocksg.RemoveStorageGroup storageGroupID d = (mock.StatusNotFound, d)
  /\ mocksg.RemoveStorageGroup storageGroupID d1
     = (200,
        mocksg.mkTables (mocksg.VolumeIDToVolume d)
          (mocksg.StorageGroupIDToStorageGroup d)
          (<[storageGroupID := []]> (mocksg.StorageGroupIDToVolumes d)))
  /\ (mocksg.VolumeIDToVolume d !! volumeID = None ->
      mocksg.RemoveStorageGroup storageGroupID d2
      = (mock.StatusInternalServerError, d2))
  /\ (mocksg.StorageGroupIDToStorageGroup d0 !! storageGroupID = Some viewed ->
      mocksg.NumOfMaskingViews viewed <> 0 ->
      mocksg.RemoveStorageGroup storageGroupID d0
      = (mock.StatusInternalServerError, d0)).
Proof.
  intros d1 d2 Hfresh.
  split; [unfold mocksg.RemoveStorageGroup; by rewrite Hfresh|].
  assert (d1 = mocksg.newStorageGroup storageGroupID "" storageResourcePoolID
                 serviceLevel 0 d) as Hd1.
  { unfold d1, mocksg.AddStorageGroup. by rewrite Hfresh. }
  split; [|split].
  - rewrite Hd1. unfold mocksg.RemoveStorageGroup, mocksg.newStorageGroup.
    cbn [mocksg.StorageGroupIDToStorageGroup mocksg.StorageGroupIDToVolumes
         mocksg.VolumeIDToVolume].
    rewrite !lookup_insert_eq. simpl.
    f_equal. f_equal. rewrite delete_insert_id by done. by apply delete_id.
  - intros Hvol. unfold d2. rewrite Hd1.
    unfold mocksg.AddNewVolume, mocksg.newStorageGroup, mocksg.newVolume.
    cbn [mocksg.StorageGroupIDToStorageGroup mocksg.StorageGroupIDToVolumes
         mocksg.VolumeIDToVolume].
    rewrite Hvol, !lookup_insert_eq. cbn [snd default].
    unfold mocksg.RemoveStorageGroup.
    cbn [mocksg.StorageGroupIDToStorageGroup mocksg.StorageGroupIDToVolumes
         mocksg.VolumeIDToVolume].
    rewrite !lookup_insert_eq. cbn [default].
    unfold mocksg.withNumOfVolumes. cbn [mocksg.NumOfMaskingViews].
    destruct (decide (0 = 0)); [|done].
    unfold id. by rewrite len_app_pos.
  - intros Hsg Hviews. unfold mocksg.RemoveStorageGroup. rewrite Hsg.
    by destruct (decide (mocksg.NumOfMaskingViews viewed = 0)).
Qed.

Lemma prefix_app (v post : string) : String.prefix v (v +:+ post) = true.
Proof.
  induction v as [|a v IH]; simpl; [by destruct post|].
  destruct (Ascii.ascii_dec a a); [apply IH|done].
Qed.

Lemma Contains_eq (s substr : string) :
  mocksg.Contains s substr
  = String.prefix substr s
    || match s with
       | EmptyString => false
       | String _ s' => mocksg.Contains s' substr
       end.
Proof. by destruct s. Qed.

Lemma Contains_infix (pre v post : string) :
  mocksg.Contains (pre +:+ v +:+ post) v = true.
Proof.
  induction pre as [|a pre IH].
  - rewrite Contains_eq.
    change ("" +:+ v +:+ post) with (v +:+ post).
    by rewrite prefix_app.
  - rewrite Contains_eq.
    change (String a pre +:+ v +:+ post)
      with (String a (pre +:+ v +:+ post)).
    cbv beta iota. rewrite IH. apply orb_true_r.
Qed.

(** X30. [AddOneVolumeToStorageGroup] looks for a known volume in the
    list of the group by substring: it refuses the volume with "Volume is
    already a part of the SG", and changes nothing, as soon as the group
    lists an id that contains the id of the volume, be it the id itself
    or a longer one. A volume the tables do not know is created in the
    group as by [AddNewVolume], and a missing group is reported. *)
Theorem volume_in_group_is_found_by_substring
    (volumeID volumeIdentifier sgID pre post : string) (size : Z)
    (sg : mocksg.StorageGroup) (pointer : option mocksg.Volume)
    (volumes : list string) (d : mocksg.Tables) :
  (mocksg.StorageGroupIDToStorageGroup d !! sgID = None ->
   mocksg.AddOneVolumeToStorageGroup volumeID volumeIdentifier sgID size d
   = (Err "The requested storage group doesn't exist", d))
  /\ (mocksg.StorageGroupIDToStorageGroup d !! sgID = Some sg ->
      mocksg.VolumeIDToVolume d !! volumeID = None ->
      mocksg.AddOneVolumeToStorageGroup volumeID volumeIdentifier sgID size d
      = mocksg.AddNewVolume volumeID volumeIdentifier size sgID d
      /\ fst (mocksg.AddNewVolume volumeID volumeIdentifier size sgID d)
         = Ok tt)
  /\ (mocksg.StorageGroupIDToStorageGroup d !! sgID = Some sg ->
      mocksg.VolumeIDToVolume d !! volumeID = Some pointer ->
      mocksg.StorageGroupIDToVolumes d !! sgID = Some volumes ->
      pre +:+ volumeID +:+ post ∈ volumes ->
      mocksg.AddOneVolumeToStorageGroup volumeID volumeIdentifier sgID size d
      = (Err "Volume is already a part of the SG", d)).
Proof.
  unfold mocksg.AddOneVolumeToStorageGroup. split; [by intros ->|]. split.
  - intros Hsg Hvol. unfold mocksg.AddNewVolume. by rewrite Hsg, Hvol.
  - intros -> -> -> Hin.
    assert (existsb (fun volume => mocksg.Contains volume volumeID) volumes
            = true) as ->; [|done].
    apply existsb_exists. exists (pre +:+ volumeID +:+ post).
    split; [by apply list_elem_of_In|apply Contains_infix].
Qed.

(** * Instances of the further properties *)

Lemma same_elements (l1 l2 : list string) :
  forallb (fun x => stringInSlice x l2) l1 = true ->
  forallb (fun x => stringInSlice x l1) l2 = true ->
  forall x : string, x ∈ l1 <-> x ∈ l2.
Proof.
  intros H1 H2 x. rewrite forallb_forall in H1, H2. split; intros H.
  - apply stringInSlice_elem, H1. by apply list_elem_of_In.
  - apply stringInSlice_elem, H2. by apply list_elem_of_In.
Qed.

(** A refused array: the listing and the synchronous addition. *)
Lemma refused_array_stops_every_operation_witness :
  GetVolumeIDList noTables noArrayAllowed 100 "000197900046" "" false
    (mockWorld [])
  = (Err "the requested array is ignored as it is not managed", mockWorld [])
  /\ AddVolumesToStorageGroupS noTables noArrayAllowed "000197900046" "sg1"
       false ["v1"] (mockWorld [])
     = (Err "the requested array is ignored as it is not managed",
        mockWorld []).
Proof.
  destruct (refused_array_stops_every_operation noTables noArrayAllowed
              (fun _ _ w => (Ok None, w)) Result (fun s => s) false 100
              "000197900046" "sg1" "" "" ""
              "the requested array is ignored as it is not managed" 10
              false false false ["v1"] []
              (GetAddVolumeToSGPayload true false "" "" ["v1"])
              (mockWorld []) eq_refl)
    as (_ & H1 & _ & _ & _ & _ & _ & _ & _ & H2 & _).
  split; [exact H1|exact H2].
Defined.

(** A listing without and with a storage group. *)
Lemma listing_needs_a_storage_group_witness :
  GetVolumeIDListInStorageGroup noTables 100 "000197900046" "" (mockWorld [])
  = (Err "storageGroupID is empty", mockWorld [])
  /\ calls (snd (GetVolumesInStorageGroupIterator noTables "000197900046"
                   "sg1" (mockWorld [])))
     = [GetVolumes "000197900046" "?storageGroupId=sg1"].
Proof.
  split.
  - exact (proj2 (proj1 (listing_needs_a_storage_group noTables 100
                           "000197900046" "" (mockWorld [])) eq_refl)).
  - apply (proj2 (listing_needs_a_storage_group noTables 100
                    "000197900046" "sg1" (mockWorld []))).
    discriminate.
Defined.

(** An addition of no volume. *)
Lemma addition_needs_a_volume_id_witness :
  AddVolumesToStorageGroupS noTables allArraysAllowed "000197900046" "sg1"
    false [] (mockWorld [])
  = (Err "at least one volume id has to be specified", mockWorld []).
Proof.
  exact (proj1 (proj2 (addition_needs_a_volume_id noTables allArraysAllowed
                         (fun _ _ w => (Ok None, w)) Result (fun s => s)
                         "000197900046" "sg1" "000197900047" "sg2" false
                         true (mockWorld []) eq_refl))).
Defined.

(** A PUT that fails with "not found". *)
Lemma failed_put_is_reported_as_missing_job_witness :
  AddVolumesToStorageGroup noTables allArraysAllowed
    (fun _ _ w => (Ok None, w)) Result (fun s => s) "000197900046" "sg1"
    false ["v1"] (mockWorld [])
  = (Err "A job was not returned from UpdateStorageGroup",
     mkWorld (server (mockWorld []))
       [PutStorageGroup "000197900046" "sg1"
          (GetAddVolumeToSGPayload false false "" "" ["v1"])]).
Proof.
  apply (proj1 (failed_put_is_reported_as_missing_job noTables
                  allArraysAllowed (fun _ _ w => (Ok None, w)) Result
                  (fun s => s) false 100 "000197900046" "sg1" "vol1"
                  "not found" 10 false true ["v1"] (server (mockWorld []))
                  (mockWorld []) eq_refl));
    [discriminate|reflexivity].
Defined.

(** A job that the poller returns while it is running. *)
Lemma addition_follows_the_poller_witness :
  AddVolumesToStorageGroup (jobApi failedJob) allArraysAllowed
    (fun _ _ w => (Ok (Some runningJob), w)) Result (fun s => s)
    "000197900046" "sg1" false ["v1"] (mkWorld tt [])
  = (Ok tt,
     mkWorld tt
       [PutStorageGroup "000197900046" "sg1"
          (GetAddVolumeToSGPayload false false "" "" ["v1"])]).
Proof.
  apply (proj2 (addition_follows_the_poller (jobApi failedJob)
                  allArraysAllowed
                  (fun _ _ w => (Ok (Some runningJob), w)) Result
                  (fun s => s) "000197900046" "sg1" "" false true ["v1"]
                  failedJob runningJob tt (mkWorld tt [])
                  (mkWorld tt
                     [PutStorageGroup "000197900046" "sg1"
                        (GetAddVolumeToSGPayload false false "" "" ["v1"])])
                  eq_refl ltac:(discriminate) eq_refl));
    [reflexivity|vm_compute; discriminate].
Defined.

(** A synchronous PUT that fails with "not found". *)
Lemma failed_synchronous_put_is_wrapped_witness :
  AddVolumesToStorageGroupS noTables allArraysAllowed "000197900046" "sg1"
    false ["v1"] (mockWorld [])
  = (Err "An error(not found) was returned from UpdateStorageGroup",
     mkWorld (server (mockWorld []))
       [PutStorageGroup "000197900046" "sg1"
          (GetAddVolumeToSGPayload true false "" "" ["v1"])]).
Proof.
  apply (proj2 (failed_synchronous_put_is_wrapped noTables allArraysAllowed
                  (fun s => s) false 100 "000197900046" "sg1" "vol1"
                  "not found" 10 false true ["v1"] []
                  (server (mockWorld [])) (mockWorld []) eq_refl));
    [discriminate|reflexivity].
Defined.

(** The volume found among the volumes of the mock. *)
Lemma found_volume_matches_group_and_size_witness :
  "sg1" ∈ types.StorageGroupIDList (mkVolume "v1" "vol1" 10 ["sg1"])
  /\ types.CapacityCYL (mkVolume "v1" "vol1" 10 ["sg1"]) = 10.
Proof.
  apply (found_volume_matches_group_and_size
           (mockApi (fun _ _ => ["v1"]) volumesInSG1) allArraysAllowed
           (fun s => s) 100 "000197900046" "sg1" "vol1" 10 (mockWorld [])
           (snd (GetVolumeByIdentifier
                   (mockApi (fun _ _ => ["v1"]) volumesInSG1)
                   allArraysAllowed (fun s => s) 100 "000197900046" "sg1"
                   "vol1" 10 (mockWorld [])))
           (mkVolume "v1" "vol1" 10 ["sg1"])).
  vm_compute. reflexivity.
Defined.

(** The drain of the mock over 25 volumes: the first page holds ten ids
    and ends at offset ten, so the count check passes. *)
Lemma count_check_sees_only_first_page_witness :
  exists l : list string,
    fst (volumeIteratorToVolIDList (mockWith (volumeIDs 25)) 100
           (mockIterator 25) (mockWorld (volumeIDs 25))) = Ok l
    /\ len l = 25.
Proof.
  pose (r := additionalPages (mockWith (volumeIDs 25)) 100 (mockIterator 25)
               11 (map VolumeIDs (VolumeList (ResultList (mockIterator 25))))
               (mockWorld (volumeIDs 25))).
  pose (l := match fst r with Ok l => l | _ => [] end).
  destruct (count_check_sees_only_first_page (mockWith (volumeIDs 25))
              (mockIterator 25) 100 (mockWorld (volumeIDs 25)) (snd r) l)
    as [Hlen Hres].
  - vm_compute. discriminate.
  - vm_compute. split; discriminate.
  - vm_compute. split; discriminate.
  - vm_compute. split; discriminate.
  - vm_compute. discriminate.
  - vm_compute. reflexivity.
  - exists l. split; [exact Hres|exact Hlen].
Defined.

(** The drain of the mock over five volumes. *)
Lemma single_page_drain_fetches_nothing_witness :
  fst (volumeIteratorToVolIDList (mockWith (volumeIDs 5)) 100
         (mockIterator 5) (mockWorld (volumeIDs 5))) = Ok (volumeIDs 5)
  /\ calls (snd (volumeIteratorToVolIDList (mockWith (volumeIDs 5)) 100
                   (mockIterator 5) (mockWorld (volumeIDs 5)))) = [].
Proof.
  destruct (single_page_drain_fetches_nothing (mockWith (volumeIDs 5))
              (mockIterator 5) 100 (mockWorld (volumeIDs 5)))
    as [Hres Hcalls]; try (unfold GoInt.small; simpl; lia).
  split; [exact Hres|exact Hcalls].
Defined.

(** The drain of 25 volumes over a transport without pages. *)
Lemma failed_page_ends_the_drain_witness :
  fst (volumeIteratorToVolIDList noTables 1 (mockIterator 25) (mockWorld []))
  = Err "not found".
Proof.
  apply (failed_page_ends_the_drain noTables (mockIterator 25) 0
           (mockWorld []) "not found" (server (mockWorld [])));
    [unfold GoInt.small; simpl; lia|simpl; lia|reflexivity].
Defined.

(** The page from 11 to 20 of the mock over 25 volumes holds nine ids. *)
Lemma mock_page_is_one_element_short_witness :
  mock.handleIterator_get 11 20 (server (mockWorld (volumeIDs 25)))
  = Some (mock.Body
            (mkVolumeResultList 11 20
               (map mkVolumeIDList (take 9 (drop 10 (volumeIDs 25)))))).
Proof.
  apply (proj1 (mock_page_is_one_element_short 11 20
                  (server (mockWorld (volumeIDs 25)))
                  ltac:(lia)
                  ltac:(unfold GoInt.in_range, GoInt.min_int, GoInt.max_int;
                        lia))).
  vm_compute. discriminate.
Defined.

(** The listing of three volumes. *)
Lemma mock_listing_round_trip_within_one_page_witness :
  mockGetVolumeIDList 0 (volumeIDs 3)
  = (Ok (volumeIDs 3),
     mkWorld
       (mock.mkState (mock.mkData (volumeIDs 3) ∅)
                     (mock.mkInducedErrors false false false))
       [GetVolumes "000197900046" ""]).
Proof.
  apply (mock_listing_round_trip_within_one_page (volumeIDs 3) 0).
  simpl. lia.
Defined.

(** Three GETs of a new job of the mock. *)
Lemma mock_job_status_alternates_witness :
  exists j1 j3 : Job,
    fst (mock.returnJobByID "t1" "job1"
           (snd (mock.NewMockJob "job1" "RUNNING" "SUCCEEDED" "link"
                                 mock.Reset)))
    = mock.Body j1
    /\ Status j3 = Status j1.
Proof.
  destruct (mock_job_status_alternates "t1" "t2" "t3" "job1"
              (mock.mkJobInfo (mkJob "job1" "SCHEDULED" "" "link" "")
                              "RUNNING" "SUCCEEDED")
              (snd (mock.NewMockJob "job1" "RUNNING" "SUCCEEDED" "link"
                                    mock.Reset)))
    as (j1 & j2 & j3 & H1 & _ & _ & H3 & _).
  { apply lookup_insert_eq. }
  exists j1, j3. split; [exact H1|exact H3].
Defined.

(** The GET of a job of the empty mock, and the GET under the induced
    error of the role. *)
Lemma mock_job_get_touches_one_job_witness :
  mock.handleJob "t1" "job1" mock.Reset
  = (mock.Error "Job not found: job1" 404, mock.Reset)
  /\ fst (mock.handleJob "t1" "job1"
            (mock.mkState (mock.mkData [] ∅)
                          (mock.mkInducedErrors false false true)))
     = mock.Error "Cannot find role for user" 500.
Proof.
  split.
  - destruct (mock_job_get_touches_one_job "t1" "job1" mock.Reset
                ltac:(discriminate)) as (_ & _ & _ & _ & _ & _ & _ & H).
    apply H; [reflexivity|reflexivity|apply lookup_empty].
  - destruct (mock_job_get_touches_one_job "t1" "job1"
                (mock.mkState (mock.mkData [] ∅)
                              (mock.mkInducedErrors false false true))
                ltac:(discriminate)) as (_ & _ & _ & _ & _ & _ & H & _).
    apply H; reflexivity.
Defined.

(** A new job leaves the job ["job2"] as it was. *)
Lemma new_mock_job_first_get_witness :
  mock.JobIDToMockJob
    (mock.data (snd (mock.NewMockJob "job1" "RUNNING" "SUCCEEDED" "link"
                                     mock.Reset))) !! "job2"
  = mock.JobIDToMockJob (mock.data mock.Reset) !! "job2".
Proof.
  apply (proj1 (proj2 (new_mock_job_first_get "t1" "job1" "RUNNING"
                         "SUCCEEDED" "link" mock.Reset))).
  discriminate.
Defined.

(** The resource of the failed job. *)
Lemma job_resource_is_last_three_parts_witness :
  GetJobResource failedJob = ("000197900046", "storagegroup", "sg1").
Proof.
  apply (proj1 (proj2 (job_resource_is_last_three_parts "job1"
                         JobStatusFailed "t2" "Mock job completed"
                         "sloprovisioning/system" "000197900046"
                         "storagegroup" "sg1"
                         (free_of_Split "000197900046" "/" eq_refl)
                         (free_of_Split "storagegroup" "/" eq_refl)
                         (free_of_Split "sg1" "/" eq_refl)))).
Defined.

(** The initiators of the host, in another order and with a repetition. *)
Lemma unchanged_initiators_issue_no_request_witness :
  UpdateHostInitiators putHostOK allArraysAllowed "000197900046"
    (Some (mkHost "h1" ["i1"; "i2"])) ["i2"; "i1"; "i1"] (tt, [])
  = (Ok (mkHost "" []), (tt, [])).
Proof.
  apply (proj1 (unchanged_initiators_issue_no_request putHostOK
                  allArraysAllowed "000197900046" true
                  (mkHost "h1" ["i1"; "i2"]) ["i2"; "i1"; "i1"] (tt, [])
                  eq_refl
                  (same_elements ["i2"; "i1"; "i1"] ["i1"; "i2"]
                     eq_refl eq_refl))).
Defined.

(** One initiator to add and one to remove. *)
Lemma initiators_are_added_then_removed_witness :
  UpdateHostInitiators putHostOK allArraysAllowed "000197900046"
    (Some (mkHost "h1" ["i1"; "i2"])) ["i2"; "i3"] (tt, [])
  = (Ok (mkHost "h1" []),
     (tt, [("h1", UpdateHostAddInitiatorsParam ["i3"]);
           ("h1", UpdateHostRemoveInititorsParam ["i1"])])).
Proof.
  apply (proj2 (proj2 (initiators_are_added_then_removed putHostOK
                         allArraysAllowed "000197900046" "" true
                         (mkHost "h1" ["i1"; "i2"]) (mkHost "h1" [])
                         (mkHost "h1" []) ["i2"; "i3"] tt tt tt [] eq_refl
                         ltac:(vm_compute; discriminate)
                         ltac:(vm_compute; discriminate))));
    reflexivity.
Defined.

(** Two equal slices of one element. *)
Lemma compareAndCheck_tests_disjointness_witness :
  mockpg.compareAndCheck ["a"] ["a"] = false.
Proof.
  apply (proj2 (proj2 (proj2 (compareAndCheck_tests_disjointness ["a"] [])))).
  discriminate.
Defined.

(** A slice without duplicates, and a slice whose first element comes
    again at the end. *)
Lemma uniqueElements_keeps_first_occurrences_witness :
  mockpg.uniqueElements ["a"; "b"] = ["a"; "b"]
  /\ mockpg.uniqueElements ["a"; "b"; "a"] = ["a"; "b"]
  /\ mockpg.uniqueElements ["b"; "a"; "b"; "c"; "a"] = ["b"; "a"; "c"].
Proof.
  split; [|split].
  - apply (proj1 (proj2 (proj2 (proj2
                    (uniqueElements_keeps_first_occurrences ["a"; "b"]))))).
    apply (bool_decide_unpack _). vm_compute. reflexivity.
  - exact (proj1 (proj2 (proj2 (proj2 (proj2 (proj2
                    (uniqueElements_keeps_first_occurrences ["b"; "a"]))))))
             "a").
  - apply (proj2 (proj2 (proj2 (proj2 (proj2 (proj2
                    (uniqueElements_keeps_first_occurrences
                       ["b"; "a"; "b"; "c"; "a"]))))))
             "a" ["b"] ["b"; "c"; "a"] eq_refl).
    intros H. apply list_elem_of_singleton in H. discriminate.
Defined.

(** The second of two occurrences stays. *)
Lemma removePortKey_removes_first_occurrence_witness :
  mockpg.removePortKey [portB; portA; portB; portA] portA
  = [portB; portB; portA].
Proof.
  apply (proj2 (removePortKey_removes_first_occurrence portA
                  [portB; portA; portB; portA] [portB] [portB; portA])).
  - reflexivity.
  - intros H. apply elem_of_cons in H as [H|H]; [discriminate|].
    by apply elem_of_nil in H.
Defined.

(** A port group of the empty table. *)
Lemma port_group_add_delete_round_trip_witness :
  mockpg.DeletePortGroup "pg1"
    (snd (mockpg.addPortGroup "pg1" "Fibre" [portA] ∅))
  = (inr onePortGroup, ∅).
Proof.
  apply (proj1 (proj2 (proj2
                  (port_group_add_delete_round_trip "pg1" "Fibre" "iSCSI"
                     [portA] [] ∅ (lookup_empty _))))).
Defined.


(** One identifier. *)
Lemma AddPortGroup_parses_director_and_port_witness :
  mockpg.AddPortGroup (fun s => s) "pg1" "Fibre" ["FA-1D:4"] ∅
  = (inr (Some onePortGroup), <["pg1" := onePortGroup]> ∅).
Proof.
  apply (proj1 (AddPortGroup_parses_director_and_port (fun s => s) "pg1"
                  "Fibre" "" [("FA-1D", "4")] [] ∅
                  ltac:(intros dp H; apply list_elem_of_singleton in H as ->;
                        split; apply free_of_Split; reflexivity))).
  apply lookup_empty.
Defined.

(** A storage group of the pool ["SRP_1"]. *)
Lemma created_storage_group_is_stored_witness :
  mocksg.AddStorageGroupFromCreateParams
    (GetCreateStorageGroupPayload "sg1" "SRP_1" "Diamond" false) emptyTables
  = Some (mocksg.mkTables ∅
            (<["sg1" := mocksg.mkStorageGroup "sg1" "Diamond" "SRP_1" 0 0 []]>
               ∅)
            (<["sg1" := []]> ∅)).
Proof.
  apply (proj1 (created_storage_group_is_stored "sg1" "SRP_1" "Diamond"
                  false emptyTables)).
  apply lookup_empty.
Defined.

(** A volume added to the storage group and removed from it. *)
Lemma volume_add_remove_round_trip_witness :
  mocksg.StorageGroupIDToVolumes
    (snd (mocksg.removeOneVolumeFromStorageGroup "v1" "sg1"
            (snd (mocksg.AddNewVolume "v1" "vol1" 10 "sg1" oneGroupTables))))
  = mocksg.StorageGroupIDToVolumes oneGroupTables
  /\ fst (mocksg.deleteVolume "v1"
            (snd (mocksg.removeOneVolumeFromStorageGroup "v1" "sg1"
                    (snd (mocksg.AddNewVolume "v1" "vol1" 10 "sg1"
                                              oneGroupTables)))))
     = Ok tt.
Proof.
  destruct (volume_add_remove_round_trip "v1" "vol1" "sg1" 10
              (mocksg.mkStorageGroup "sg1" "Diamond" "SRP_1" 0 0 []) []
              oneGroupTables)
    as (_ & _ & _ & _ & Hvolumes & _ & Hdelete).
  - apply lookup_empty.
  - apply lookup_insert_eq.
  - apply lookup_insert_eq.
  - apply not_elem_of_nil.
  - vm_compute. split; discriminate.
  - split; [exact Hvolumes|exact Hdelete].
Defined.

(** A volume deleted twice. *)
Lemma deleted_volume_id_stays_taken_witness :
  mocksg.deleteVolume "v1" (snd (mocksg.deleteVolume "v1" looseVolumeTables))
  = (Panic "invalid memory address or nil pointer dereference",
     snd (mocksg.deleteVolume "v1" looseVolumeTables)).
Proof.
  destruct (proj2 (proj2 (deleted_volume_id_stays_taken "v1" "vol1" "sg1" 10
                            (looseVolume "v1") looseVolumeTables))
                  (lookup_insert_eq _ _ _) ltac:(simpl; lia))
    as (_ & _ & Hagain & _).
  exact Hagain.
Defined.

(** A storage group with one volume. *)
Lemma storage_group_removal_round_trip_witness :
  mocksg.RemoveStorageGroup "sg1"
    (snd (mocksg.AddNewVolume "v1" "vol1" 10 "sg1" oneGroupTables))
  = (mock.StatusInternalServerError,
     snd (mocksg.AddNewVolume "v1" "vol1" 10 "sg1" oneGroupTables)).
Proof.
  apply (proj1 (proj2 (proj2
                  (storage_group_removal_round_trip "sg1" "SRP_1" "Diamond"
                     "v1" "vol1" 10
                     (mocksg.mkStorageGroup "" "" "" 0 0 []) emptyTables
                     emptyTables (lookup_empty _))))).
  apply lookup_empty.
Defined.

(** The volume ["001"] beside the volume ["0010"] of the group. *)
Lemma volume_in_group_is_found_by_substring_witness :
  mocksg.AddOneVolumeToStorageGroup "001" "vol1" "sg1" 10 substringTables
  = (Err "Volume is already a part of the SG", substringTables).
Proof.
  apply (proj2 (proj2 (volume_in_group_is_found_by_substring "001" "vol1"
                         "sg1" "" "0" 10
                         (mocksg.mkStorageGroup "sg1" "Diamond" "SRP_1" 1 0 [])
                         (Some (looseVolume "001")) ["0010"]
                         substringTables))).
  - vm_compute. reflexivity.
  - apply lookup_insert_eq.
  - vm_compute. reflexivity.
  - apply list_elem_of_here.
Defined.
